(** * nanoleaf: the retrying HTTP client of a Nanoleaf controller

    A shallow embedding of [nanoleaf.go] (package [nanoleaf]) and the
    properties of its retry loop, its error classifier and its request
    encoders.

    Conventions of the embedding:
    - a [time.Duration] and a [time.Time] are a number of nanoseconds in [Z];
    - a Go [error] value is an [option error], [None] being [nil];
    - the outside world (clock, network, state of the caller's context) is a
      value of an abstract type threaded through every call;
    - the loop of [retry] has no bound in the source: the embedding takes the
      number of attempts it may make as fuel and says so when it runs out. *)

From Stdlib Require Import ZArith List String Ascii Bool Lia QArith Qminmax.
From Stdlib Require Import Floats Uint63 SpecFloat DecimalString.
Import ListNotations.

Local Open Scope string_scope.
Local Open Scope list_scope.
Local Open Scope Z_scope.

Set Implicit Arguments.

(* ================================================================= *)
(** ** package time *)

Definition Duration := Z.

Definition Nanosecond : Duration := 1.
Definition Microsecond : Duration := 1000 * Nanosecond.
Definition Millisecond : Duration := 1000 * Microsecond.
Definition Second : Duration := 1000 * Millisecond.

(** [float64(d)] for an [int64] [d]: the nearest binary64, ties to even.
    (The loop of [retry] converts durations between 100ms and 5s only.) *)
Definition float64_of_int64 (d : Z) : float :=
  if d <? 0
  then PrimFloat.opp (PrimFloat.of_uint63 (Uint63.of_Z (- d)))
  else PrimFloat.of_uint63 (Uint63.of_Z d).

(** [int64(f)] for a finite [float64] [f] in range: the fraction is
    discarded (truncation towards zero). *)
Definition int64_of_float64 (f : float) : Z :=
  match Prim2SF f with
  | S754_finite sign m e =>
      let mag := if 0 <=? e then Z.shiftl (Z.pos m) e
                 else Z.shiftr (Z.pos m) (- e) in
      if sign then - mag else mag
  | _ => 0
  end.

(* ================================================================= *)
(** ** Errors: packages errors, context, net, fmt *)

(** The error values the program meets, by dynamic type. *)
Inductive error : Type :=
| DeadlineExceeded                  (* context.DeadlineExceeded *)
| Canceled                          (* context.Canceled *)
| errorString (s : string)          (* errors.New, fmt.Errorf without %w *)
| wrapError (msg : string) (err : error)
                                    (* fmt.Errorf("msg: %w", err) *)
| netError (msg : string) (timeout : bool)
                                    (* a net.Error with nothing to unwrap *)
| opError (op : string) (timeout : bool) (err : error)
                                    (* *net.OpError, *url.Error: a net.Error
                                       that unwraps to [err] *)
| jsonError (msg : string).         (* the errors of encoding/json *)

Definition error_eq_dec (a b : error) : {a = b} + {a <> b}.
Proof.
  decide equality; try apply string_dec; apply bool_dec.
Defined.

Definition error_eqb (a b : error) : bool :=
  if error_eq_dec a b then true else false.

(** [Unwrap()] where the dynamic type has it. *)
Definition Unwrap (err : error) : option error :=
  match err with
  | wrapError _ e => Some e
  | opError _ _ e => Some e
  | _ => None
  end.

(** [errors.Is(err, target)]: [target] is met somewhere on the chain of
    [Unwrap]s that starts at [err]. An [Is] method of an error's own, which
    [errors.Is] would also ask, is not modelled: no error built by this
    package has one. *)
Fixpoint errors_Is (err target : error) : bool :=
  if error_eqb err target then true
  else match err with
       | wrapError _ e => errors_Is e target
       | opError _ _ e => errors_Is e target
       | _ => false
       end.

(** [ne, ok := err.(net.Error)], then [ne.Timeout()]: [None] when the
    dynamic type of [err] itself has no [Timeout] and [Temporary] methods.
    The assertion looks at [err] alone, never through [Unwrap]. *)
Definition net_Error_Timeout (err : error) : option bool :=
  match err with
  | DeadlineExceeded => Some true
  | netError _ timeout => Some timeout
  | opError _ timeout _ => Some timeout
  | _ => None
  end.

(** retryableErr reports whether the error should cause another try. *)
Definition retryableErr (err : option error) : bool :=
  match err with
  | None => false
  | Some e =>
      if errors_Is e DeadlineExceeded then true
      else match net_Error_Timeout e with
           | Some true => true
           | _ => false (* any other error is probably permanent *)
           end
  end.

(* ================================================================= *)
(** ** Automatic retry parameters *)

Definition baseTimeout : Duration := 100 * Millisecond.
Definition backoffMult : float := 1.5%float.
Definition maxTimeout : Duration := 5 * Second.

(** The two statements that end an iteration of the loop of [retry]:
    [timeout = time.Duration(float64(timeout) * backoffMult)], then the cap. *)
Definition next_timeout (timeout : Duration) : Duration :=
  let timeout' :=
    int64_of_float64 (PrimFloat.mul (float64_of_int64 timeout) backoffMult) in
  if timeout' >? maxTimeout then maxTimeout else timeout'.

(** The timeout of attempt [k], counting from 0. *)
Fixpoint timeout_at (k : nat) : Duration :=
  match k with
  | O => baseTimeout
  | S k' => next_timeout (timeout_at k')
  end.

(* ================================================================= *)
(** ** Contexts *)

(** A context is the caller's (known by a number) or one derived from
    another by a deadline. *)
Inductive context : Type :=
| Caller (id : nat)
| WithDeadline (parent : context) (deadline : Z).

(** [context.WithTimeout(parent, timeout)] called at time [t]. The cancel
    function it also returns only releases the timer: [retry] calls it when
    the attempt is over and never looks at the sub-context again. *)
Definition WithTimeout (parent : context) (timeout : Duration) (t : Z)
  : context :=
  WithDeadline parent (t + timeout).

(* ================================================================= *)
(** ** What an execution leaves behind *)

(** An argument of a trace line. *)
Inductive Arg : Type :=
| ArgDuration (d : Duration)
| ArgString (s : string).

(** One call of the [Tracef] hook. *)
Record TraceCall : Type := mkTraceCall {
  tc_ctx : context;
  tc_format : string;
  tc_args : list Arg
}.

(** One call of the operation given to [retry]. *)
Record Attempt : Type := mkAttempt {
  a_timeout : Duration;     (* the value of [timeout] in this iteration *)
  a_sub : context;          (* the sub-context the operation received *)
  a_start : Z;              (* [t0] *)
  a_err : option error;     (* what the operation returned *)
  a_end : Z                 (* the clock when it returned *)
}.

Inductive Event : Type :=
| EvTrace (call : TraceCall)        (* the hook was called *)
| EvAttempt (a : Attempt)           (* the operation was called *)
| EvCtxErr (err : option error).    (* [ctx.Err()] was evaluated *)

Definition trace_calls (l : list Event) : list TraceCall :=
  flat_map (fun ev => match ev with EvTrace c => [c] | _ => [] end) l.

Definition attempts (l : list Event) : list Attempt :=
  flat_map (fun ev => match ev with EvAttempt a => [a] | _ => [] end) l.

Definition ctx_checks (l : list Event) : list (option error) :=
  flat_map (fun ev => match ev with EvCtxErr e => [e] | _ => [] end) l.

(** How a call ended. *)
Inductive outcome (A : Type) : Type :=
| Returned (a : A)
| Panicked
| OutOfFuel.
Arguments Panicked {A}.
Arguments OutOfFuel {A}.

Definition line_starting (timeout : Duration) : string * list Arg :=
  ("Nanoleaf operation starting with timeout %v", [ArgDuration timeout]).
Definition line_finished (elapsed : Duration) : string * list Arg :=
  ("Nanoleaf operation finished after %v", [ArgDuration elapsed]).
Definition line_giving_up : string * list Arg :=
  ("Nanoleaf operation giving up", []).

(* ================================================================= *)
(** ** The Controller and its retry loop *)

Section Retrier.

(** [W] is the world outside the program; [L] is what the operation's
    closure captures and assigns. The hook, the clock and the contexts
    see the world only. *)
Context {W L : Type}.
Variable now : W -> Z.                           (* time.Now() *)
Variable ctx_Err : context -> W -> option error. (* ctx.Err() *)

Record Controller : Type := mkController {
  ip : string;
  authToken : string;
  (* Tracef, if set, will be used to write trace lines. *)
  Tracef : option (context -> string -> list Arg -> W -> W)
}.

Definition Connect (ip authToken : string)
  : option Controller * option error :=
  (Some {| ip := ip; authToken := authToken; Tracef := None |}, None).

Record Sim : Type := mkSim {
  world : W;
  locals : L;
  events : list Event
}.

Definition log (ev : Event) (s : Sim) : Sim :=
  {| world := world s; locals := locals s; events := events s ++ [ev] |}.

Definition tracef (c : Controller) (ctx : context)
    (line : string * list Arg) (s : Sim) : Sim :=
  match Tracef c with
  | Some hook =>
      {| world := hook ctx (fst line) (snd line) (world s);
         locals := locals s;
         events := events s
                   ++ [EvTrace (mkTraceCall ctx (fst line) (snd line))] |}
  | None => s
  end.

(** [rawDebug] is [false]: [debugf] returns at once, and the program
    writes nothing to standard error. *)
Definition rawDebug : bool := false.
Definition debugf (line : string * list Arg) (s : Sim) : Sim :=
  if negb rawDebug then s else s.

Definition retryableOp : Type := context -> W * L -> option error * (W * L).

Fixpoint retry_loop (c : Controller) (ctx : context) (f : retryableOp)
    (fuel : nat) (timeout : Duration) (s : Sim)
  : outcome (option error) * Sim :=
  match fuel with
  | O => (OutOfFuel, s)
  | S fuel' =>
      let sub := WithTimeout ctx timeout (now (world s)) in
      let s1 := tracef c ctx (line_starting timeout) s in
      let s1 := debugf ("Trying operation with timeout=%v",
                        [ArgDuration timeout]) s1 in
      let t0 := now (world s1) in
      let '(err, (w2, l2)) := f sub (world s1, locals s1) in
      (* cancel() *)
      let s2 := log (EvAttempt (mkAttempt timeout sub t0 err (now w2)))
                    {| world := w2; locals := l2; events := events s1 |} in
      if negb (retryableErr err) then
        (* Success, or a non-timeout failure. *)
        let s3 := tracef c ctx (line_finished (now (world s2) - t0)) s2 in
        let s3 := debugf ("Operation took %v",
                          [ArgDuration (now (world s3) - t0)]) s3 in
        (Returned err, s3)
      else
        let cerr := ctx_Err ctx (world s2) in
        let s3 := log (EvCtxErr cerr) s2 in
        match cerr with
        | Some e =>
            (* Give up on the overall effort. *)
            (Returned (Some e), tracef c ctx line_giving_up s3)
        | None =>
            (* Try again. *)
            retry_loop c ctx f fuel' (next_timeout timeout) s3
        end
  end.

Definition retry (c : Controller) (ctx : context) (f : retryableOp)
    (fuel : nat) (s : Sim) : outcome (option error) * Sim :=
  retry_loop c ctx f fuel baseTimeout s.

End Retrier.


(* ================================================================= *)
(** ** The shape of the events of one call of [retry] *)

(** The events of one call of [tracef]: one when the hook is set. *)
Definition traced_line (traced : bool) (ctx : context)
    (line : string * list Arg) : list Event :=
  if traced then [EvTrace (mkTraceCall ctx (fst line) (snd line))] else [].

(** [a] is attempt number [k] under the umbrella context [ctx]. *)
Definition attempt_of (ctx : context) (k : nat) (a : Attempt) : Prop :=
  a_timeout a = timeout_at k /\ exists d, a_sub a = WithDeadline ctx d.

(** [RetryLog traced ctx k l o]: [l] is what the loop leaves behind from
    the iteration of attempt [k] on, and [o] is how it ends. *)
Inductive RetryLog (traced : bool) (ctx : context)
  : nat -> list Event -> outcome (option error) -> Prop :=
| RL_out_of_fuel k :
    RetryLog traced ctx k [] OutOfFuel
| RL_done k a :
    attempt_of ctx k a ->
    retryableErr (a_err a) = false ->
    RetryLog traced ctx k
      (traced_line traced ctx (line_starting (timeout_at k))
       ++ EvAttempt a
       :: traced_line traced ctx (line_finished (a_end a - a_start a)))
      (Returned (a_err a))
| RL_give_up k a e :
    attempt_of ctx k a ->
    retryableErr (a_err a) = true ->
    RetryLog traced ctx k
      (traced_line traced ctx (line_starting (timeout_at k))
       ++ EvAttempt a :: EvCtxErr (Some e)
       :: traced_line traced ctx line_giving_up)
      (Returned (Some e))
| RL_again k a l o :
    attempt_of ctx k a ->
    retryableErr (a_err a) = true ->
    RetryLog traced ctx (S k) l o ->
    RetryLog traced ctx k
      (traced_line traced ctx (line_starting (timeout_at k))
       ++ EvAttempt a :: EvCtxErr None :: l)
      o.

Definition is_trace (ev : Event) : bool :=
  match ev with EvTrace _ => true | _ => false end.

Definition is_set {A : Type} (o : option A) : bool :=
  match o with Some _ => true | None => false end.

(** [Chain e t]: following [Unwrap] from [e] reaches [t]. *)
Inductive Chain : error -> error -> Prop :=
| Chain_here e : Chain e e
| Chain_next e e' t : Unwrap e = Some e' -> Chain e' t -> Chain e t.

(** The call of the hook that [tracef] makes for a line. *)
Definition call_of (ctx : context) (line : string * list Arg) : TraceCall :=
  mkTraceCall ctx (fst line) (snd line).

(** The line that opens the iteration of an attempt, and the line that
    closes the loop after its last attempt. *)
Definition opening_call (ctx : context) (a : Attempt) : TraceCall :=
  call_of ctx (line_starting (a_timeout a)).

Definition closing_call (ctx : context) (a : Attempt) : TraceCall :=
  call_of ctx (if retryableErr (a_err a) then line_giving_up
               else line_finished (a_end a - a_start a)).

(** The per-attempt timeout that the specification words give:
    [min(base * 1.5^k, max)], as a rational number of nanoseconds. *)
Definition spec_timeout (k : nat) : Q :=
  Qmin (inject_Z baseTimeout * Qpower (3 # 2) (Z.of_nat k))
       (inject_Z maxTimeout).

(* ================================================================= *)
(** ** encoding/json, as far as the requests of this package go *)

#[local] Set Warnings "-register-all".

(** A Go value as [json.Marshal] sees it by reflection: a struct is the
    list of its fields, each with the name and the [omitempty] option of
    its tag. *)
Inductive value : Type :=
| VBool (b : bool)
| VInt (n : Z)
| VStruct (fields : list (string * bool * value)).

(** An [omitempty] field is left out when it is false or 0; a struct is
    never empty. *)
Definition isEmptyValue (v : value) : bool :=
  match v with
  | VBool b => negb b
  | VInt n => n =? 0
  | VStruct _ => false
  end.

Inductive json : Type :=
| JBool (b : bool)
| JNumber (n : Z)
| JObject (members : list (string * json)).

Fixpoint to_json (v : value) : json :=
  match v with
  | VBool b => JBool b
  | VInt n => JNumber n
  | VStruct fields =>
      JObject
        ((fix members (fs : list (string * bool * value)) :=
            match fs with
            | [] => []
            | (name, omitempty, fv) :: rest =>
                if omitempty && isEmptyValue fv then members rest
                else (name, to_json fv) :: members rest
            end) fields)
  end.

Definition dquote : string := String "034"%char EmptyString.

(** A field name of this package between double quotes (no name here has
    a character that the encoder escapes). *)
Definition quote (s : string) : string := (dquote ++ s ++ dquote)%string.

(** [strconv.Itoa]. *)
Definition itoa (n : Z) : string := NilZero.string_of_int (Z.to_int n).

Fixpoint render (j : json) : string :=
  match j with
  | JBool b => if b then "true" else "false"
  | JNumber n => itoa n
  | JObject members =>
      ("{" ++
       (fix go (ms : list (string * json)) (first : bool) : string :=
          match ms with
          | [] => ""
          | (k, v) :: rest =>
              (if first then "" else ",") ++ quote k ++ ":" ++ render v
              ++ go rest false
          end) members true
       ++ "}")%string
  end.

(** [json.Marshal]: it cannot fail on structs of booleans and integers. *)
Definition json_Marshal (v : value) : string + error :=
  inl (render (to_json v)).

(** The member named [k] of an object. *)
Definition json_member (k : string) (j : json) : option json :=
  match j with
  | JObject members =>
      match find (fun m => String.eqb (fst m) k) members with
      | Some m => Some (snd m)
      | None => None
      end
  | _ => None
  end.

(** The payload of [SetBrightness] holds a duration. *)
Definition has_duration (body : json) : bool :=
  match json_member "brightness" body with
  | Some b => is_set (json_member "duration" b)
  | None => false
  end.

(* ================================================================= *)
(** ** net/http *)

Record Request : Type := mkRequest {
  Method : string;
  URL : string;
  ReqBody : option string;
  Close : bool;
  ReqCtx : context
}.

Record Response : Type := mkResponse {
  StatusCode : Z;
  Status : string;
  Body : string;            (* what [ioutil.ReadAll(resp.Body)] reads *)
  BodyErr : option error    (* and the error it returns *)
}.

(** The variable [resp] that the closures of [get] and [put] assign, with
    a record of the requests handed to the HTTP client and of the bodies
    handed to [json.Unmarshal]. *)
Record OpState : Type := mkOpState {
  resp : option Response;
  wire : list Request;
  decoded : list string
}.

Record State : Type := mkState {
  Name : string;            (* the native name, not what you've given it *)
  Serial : string;
  FirmwareVersion : string;
  Effects_Selected : string;
  Effects_List : list string
}.

Definition zero_State : State := mkState "" "" "" "" [].

Record Color : Type := mkColor {
  Hue : Z;        (* [0,360] *)
  Saturation : Z; (* [0,100] *)
  Brightness : Z  (* [0,100] *)
}.

(* ================================================================= *)
(** ** The operations of the Controller *)

(** [State], [Off], [On], [SetBrightness] and [SetColor], with the [get]
    and [put] they are made of. [SetEffect], whose body holds a string
    that the encoder would have to escape, is left out. *)

Section Device.

Context {N : Type}.
Variable now : N -> Z.
Variable ctx_Err : context -> N -> option error.
(** The error of [url.Parse] inside [http.NewRequestWithContext]. *)
Variable url_error : string -> option error.
(** [http.DefaultClient.Do]. *)
Variable Do : Request -> N -> (Response + error) * N.
(** [json.Unmarshal] into a [*State]: the message of its error, if any,
    and the destination afterwards. *)
Variable json_Unmarshal : string -> State -> option string * State.

Let Controller := @Controller N.
Let Sim := @Sim N OpState.

Definition api (c : Controller) (token path : string) : string :=
  ("http://" ++ ip c ++ ":16021/api/v1/" ++ token ++ path)%string.

Definition line_get (c : Controller) (path : string) : string * list Arg :=
  ("Nanoleaf GET to %s", [ArgString (api c "<tok>" path)]).
Definition line_put (c : Controller) (path : string) : string * list Arg :=
  ("Nanoleaf PUT to %s", [ArgString (api c "<tok>" path)]).

(** The methods of this package are valid and the context is not nil:
    only the URL can make it fail. *)
Definition http_NewRequestWithContext (ctx : context)
    (method url : string) (body : option string) : Request + error :=
  match url_error url with
  | Some e => inr e
  | None => inl (mkRequest method url body false ctx)
  end.

Definition set_Close (b : bool) (req : Request) : Request :=
  mkRequest (Method req) (URL req) (ReqBody req) b (ReqCtx req).

(** The closure that [get] and [put] give to [retry]. *)
Definition http_attempt (c : Controller) (method path : string)
    (body : option string) : retryableOp (W:=N) (L:=OpState) :=
  fun ctx '(w, l) =>
    match http_NewRequestWithContext ctx method
            (api c (authToken c) path) body with
    | inr err => (Some (wrapError "preparing HTTP request" err), (w, l))
    | inl req =>
        (* If we need to retry, use a fresh connection. *)
        let req := set_Close true req in
        let '(res, w') := Do req w in
        let sent := wire l ++ [req] in
        match res with
        | inl r => (None, (w', mkOpState (Some r) sent (decoded l)))
        | inr err =>
            (Some (wrapError "making HTTP request" err),
             (w', mkOpState None sent (decoded l)))
        end
    end.

(** [r] is what the HTTP client answered to a request of this method,
    path and body, sent on a fresh connection. *)
Definition answered (c : Controller) (method path : string)
    (body : option string) (r : Response) : Prop :=
  exists ctx w w',
    Do (mkRequest method (api c (authToken c) path) body true ctx) w
    = (inl r, w').

(** [var resp *http.Response]. *)
Definition declare_resp (s : Sim) : Sim :=
  mkSim (world s)
        (mkOpState None (wire (locals s)) (decoded (locals s)))
        (events s).

Definition note_decoded (body : string) (s : Sim) : Sim :=
  mkSim (world s)
        (mkOpState (resp (locals s)) (wire (locals s))
                   (decoded (locals s) ++ [body]))
        (events s).

Definition get (c : Controller) (ctx : context) (path : string)
    (dst : State) (fuel : nat) (s : Sim)
  : outcome (option error) * State * Sim :=
  let s := tracef c ctx (line_get c path) s in
  let s := debugf ("GET to %s", [ArgString (api c "<tok>" path)]) s in
  let s := declare_resp s in
  let '(res, s) :=
    retry now ctx_Err c ctx (http_attempt c "GET" path None) fuel s in
  match res with
  | OutOfFuel => (OutOfFuel, dst, s)
  | Panicked => (Panicked, dst, s)
  | Returned (Some err) => (Returned (Some err), dst, s)
  | Returned None =>
      match resp (locals s) with
      | None => (Panicked, dst, s)
      | Some r =>
          let body := Body r in
          let err := BodyErr r in
          if StatusCode r >=? 300 then
            (Returned (Some (errorString ("HTTP response " ++ Status r))),
             dst, s)
          else
            match err with
            | Some err =>
                (Returned (Some (wrapError "reading HTTP response body" err)),
                 dst, s)
            | None =>
                let '(msg, dst') := json_Unmarshal body dst in
                (Returned (option_map jsonError msg), dst',
                 note_decoded body s)
            end
      end
  end.

Definition put (c : Controller) (ctx : context) (path : string)
    (obj : value) (fuel : nat) (s : Sim)
  : outcome (option error) * Sim :=
  match json_Marshal obj with
  | inr err => (Returned (Some (wrapError "encoding JSON body" err)), s)
  | inl body =>
      let s := tracef c ctx (line_put c path) s in
      let s := debugf ("PUT to %s\n  %s",
                       [ArgString (api c "<tok>" path); ArgString body]) s in
      let s := declare_resp s in
      let '(res, s) :=
        retry now ctx_Err c ctx (http_attempt c "PUT" path (Some body))
              fuel s in
      match res with
      | OutOfFuel => (OutOfFuel, s)
      | Panicked => (Panicked, s)
      | Returned (Some err) => (Returned (Some err), s)
      | Returned None =>
          match resp (locals s) with
          | None => (Panicked, s)
          | Some r =>
              if StatusCode r >=? 300 then
                (Returned (Some (errorString ("HTTP response " ++ Status r))),
                 s)
              else (Returned None, s)
          end
      end
  end.

(** State requests the state of the controller. *)
Definition Controller_State (c : Controller) (ctx : context) (fuel : nat)
    (s : Sim) : outcome (option State * option error) * Sim :=
  let '(res, state, s) := get c ctx "/" zero_State fuel s in
  match res with
  | OutOfFuel => (OutOfFuel, s)
  | Panicked => (Panicked, s)
  | Returned (Some err) => (Returned (None, Some err), s)
  | Returned None => (Returned (Some state, None), s)
  end.

Definition on_request (on : bool) : value :=
  VStruct [("on", false, VStruct [("value", false, VBool on)])].

(** Off turns the controller off. *)
Definition Off (c : Controller) (ctx : context) (fuel : nat) (s : Sim)
  : outcome (option error) * Sim :=
  put c ctx "/state" (on_request false) fuel s.

(** On turns the controller on. *)
Definition On (c : Controller) (ctx : context) (fuel : nat) (s : Sim)
  : outcome (option error) * Sim :=
  put c ctx "/state" (on_request true) fuel s.

(** The request of [SetBrightness]: [Duration] keeps its zero value
    unless [dur >= 0]. *)
Definition brightness_request (v : Z) (dur : Duration) : value :=
  let duration := if dur >=? 0 then Z.quot dur Second else 0 in
  VStruct [("brightness", false,
            VStruct [("value", false, VInt v);
                     ("duration", true, VInt duration)])].

(** SetBrightness sets the brightness to a value in [0,100], over a
    period of time. *)
Definition SetBrightness (c : Controller) (ctx : context) (v : Z)
    (dur : Duration) (fuel : nat) (s : Sim)
  : outcome (option error) * Sim :=
  put c ctx "/state" (brightness_request v dur) fuel s.

Definition color_request (col : Color) : value :=
  VStruct [("hue", false, VStruct [("value", false, VInt (Hue col))]);
           ("sat", false, VStruct [("value", false, VInt (Saturation col))]);
           ("brightness", false,
            VStruct [("value", false, VInt (Brightness col))])].

Definition SetColor (c : Controller) (ctx : context) (col : Color)
    (fuel : nat) (s : Sim) : outcome (option error) * Sim :=
  put c ctx "/state" (color_request col) fuel s.

End Device.

(** The body that the specification gives for the power requests:
    [{"on":{"value":true}}] and [{"on":{"value":false}}]. *)
Definition spec_power_body (on : bool) : string :=
  ("{" ++ quote "on" ++ ":{" ++ quote "value" ++ ":"
   ++ (if on then "true" else "false") ++ "}}")%string.

(* ================================================================= *)
(** ** What the program sees of the world *)

(** The events of the program itself: all but the calls of the hook. *)
Definition program_events (l : list Event) : list Event :=
  filter (fun ev => negb (is_trace ev)) l.

Section Views.

Context {W L V : Type}.
(** [view w] is the part of the world that the clock, the contexts and the
    operation depend on; the rest is for the hook to write to. *)
Variable view : W -> V.

Definition respects_view {A : Type} (g : W -> A) : Prop :=
  forall w1 w2, view w1 = view w2 -> g w1 = g w2.

(** The hook leaves the view as it is (it also takes no time, the clock
    being in the view). *)
Definition hook_frames (c : Controller (W:=W)) : Prop :=
  forall hook, Tracef c = Some hook ->
  forall ctx format args w, view (hook ctx format args w) = view w.

(** The operation reads the view only, and decides the next view from it. *)
Definition op_respects_view (f : retryableOp (W:=W) (L:=L)) : Prop :=
  forall ctx w1 w2 l,
    view w1 = view w2 ->
    fst (f ctx (w1, l)) = fst (f ctx (w2, l)) /\
    view (fst (snd (f ctx (w1, l)))) = view (fst (snd (f ctx (w2, l)))) /\
    snd (snd (f ctx (w1, l))) = snd (snd (f ctx (w2, l))).

(** The HTTP client reads the view only. *)
Definition client_respects_view
    (Do : Request -> W -> (Response + error) * W) : Prop :=
  forall req w1 w2,
    view w1 = view w2 ->
    fst (Do req w1) = fst (Do req w2) /\
    view (snd (Do req w1)) = view (snd (Do req w2)).

(** Two states that the program cannot tell apart. *)
Definition Agree (s1 s2 : Sim (W:=W) (L:=L)) : Prop :=
  view (world s1) = view (world s2) /\
  locals s1 = locals s2 /\
  program_events (events s1) = program_events (events s2).

End Views.

(** The same controller with no hook. *)
Definition without_hook {W : Type} (c : Controller (W:=W)) : Controller (W:=W) :=
  mkController (ip c) (authToken c) None.

(* ================================================================= *)
(** ** A scripted world, to run the program on *)

Module Mock.

Definition no_content : Response := mkResponse 204 "204 No Content" "" None.

(** The clock, the exchanges to come (how long each takes and how it
    ends), the instant at which the caller's context ends and the error it
    reports from then on, and the formats of the trace lines written so
    far. *)
Record World : Type := mkWorld {
  clock : Z;
  script : list (Duration * (Response + error));
  ends : Z;
  ends_with : error;
  sink : list string
}.

Definition fails (took : Duration) (err : error)
  : Duration * (Response + error) := (took, inr err).
Definition answers (took : Duration) (r : Response)
  : Duration * (Response + error) := (took, inl r).
Definition succeeds (took : Duration) : Duration * (Response + error) :=
  answers took no_content.

Definition now (w : World) : Z := clock w.

Definition ctx_Err (ctx : context) (w : World) : option error :=
  if ends w <=? clock w then Some (ends_with w) else None.

(** One exchange: the next entry of the script; past its end the exchange
    hangs until the deadline of its context. *)
Definition exchange (ctx : context) (w : World) : (Response + error) * World :=
  match script w with
  | (took, res) :: rest =>
      (res, mkWorld (clock w + took) rest (ends w) (ends_with w) (sink w))
  | [] =>
      let t := match ctx with
               | WithDeadline _ d => Z.max (clock w) d
               | Caller _ => clock w
               end in
      (inr DeadlineExceeded, mkWorld t [] (ends w) (ends_with w) (sink w))
  end.

(** An operation for [retry]: one exchange, counted. *)
Definition op : retryableOp (W:=World) (L:=nat) :=
  fun ctx '(w, calls) =>
    let '(res, w') := exchange ctx w in
    (match res with inl _ => None | inr err => Some err end, (w', S calls)).

(** The HTTP client: one exchange under the context of the request. *)
Definition Do (req : Request) (w : World) : (Response + error) * World :=
  exchange (ReqCtx req) w.

(** A client that always answers 204 at once. *)
Definition Do_ok (req : Request) (w : World) : (Response + error) * World :=
  (inl no_content, w).

Definition url_error (url : string) : option error := None.

Definition json_Unmarshal (body : string) (dst : State)
  : option string * State :=
  if String.eqb body "{}" then (None, dst)
  else (Some "invalid character", dst).

Definition hook (ctx : context) (format : string) (args : list Arg)
    (w : World) : World :=
  mkWorld (clock w) (script w) (ends w) (ends_with w) (sink w ++ [format]).

Definition traced : Controller (W:=World) :=
  mkController "192.0.2.7" "token" (Some hook).
Definition silent : Controller (W:=World) :=
  mkController "192.0.2.7" "token" None.

Definition start (script : list (Duration * (Response + error))) (ends : Z)
    (ends_with : error) : Sim (W:=World) (L:=nat) :=
  mkSim (mkWorld 0 script ends ends_with []) O [].

Definition device (script : list (Duration * (Response + error)))
  : Sim (W:=World) (L:=OpState) :=
  mkSim (mkWorld 0 script (3600 * Second) DeadlineExceeded [])
        (mkOpState None [] []) [].

Definition run (c : Controller) (fuel : nat) (s : Sim (W:=World) (L:=nat))
  : outcome (option error) * Sim :=
  retry now ctx_Err c (Caller 0) op fuel s.

(** The operation hangs at every attempt and the caller cancels after
    200ms. *)
Definition cancelled : Sim (W:=World) (L:=nat) :=
  start [] (200 * Millisecond) Canceled.

(** A timeout after 100ms, then a success that takes 30ms. *)
Definition timeout_then_success : Sim (W:=World) (L:=nat) :=
  start [fails (100 * Millisecond) DeadlineExceeded;
         succeeds (30 * Millisecond)]
        (60 * Second) DeadlineExceeded.

(** The operation hangs at every attempt; the caller waits an hour. *)
Definition hanging : Sim (W:=World) (L:=nat) :=
  start [] (3600 * Second) DeadlineExceeded.

(** The caller's context has expired before the call; the operation
    succeeds all the same. *)
Definition expired_on_entry : Sim (W:=World) (L:=nat) :=
  start [succeeds (10 * Millisecond)] 0 DeadlineExceeded.

(** The connection is refused. *)
Definition refused : Sim (W:=World) (L:=nat) :=
  start [fails (5 * Millisecond)
           (opError "dial" false (errorString "connection refused"))]
        (60 * Second) DeadlineExceeded.

(** The device answers 500 with a body that is valid JSON. *)
Definition internal_error : Response :=
  mkResponse 500 "500 Internal Server Error" "{}" None.

(** [get] of the state from a device that answers 500. *)
Definition get_from_broken_device
  : outcome (option error) * State * Sim (W:=World) (L:=OpState) :=
  get now ctx_Err url_error Do json_Unmarshal silent (Caller 0) "/"
      zero_State 3 (device [answers (20 * Millisecond) internal_error]).

(** A device that lets the first request time out and answers the
    second. *)
Definition slow_device : Sim (W:=World) (L:=OpState) :=
  device [fails (100 * Millisecond)
            (opError "Put" true DeadlineExceeded);
          succeeds (30 * Millisecond)].

(** What of the world the program itself can see: all but the sink. *)
Definition view (w : World)
  : Z * list (Duration * (Response + error)) * Z * error :=
  (clock w, script w, ends w, ends_with w).

End Mock.

(* ================================================================= *)
(** ** Requests, clocks and more scripted worlds *)

(** [req] is the request that the closure of [get] or [put] builds for
    this method, path and body in an attempt under [ctx]: the address with
    the real token, a connection of its own, and a context derived from
    [ctx] by a deadline. *)
Definition sent_by {N : Type} (c : Controller (W:=N)) (method path : string)
    (body : option string) (ctx : context) (req : Request) : Prop :=
  Method req = method
  /\ URL req = api c (authToken c) path
  /\ ReqBody req = body
  /\ Close req = true
  /\ exists d, ReqCtx req = WithDeadline ctx d.

(** Neither the hook nor the operation sets the clock back. *)
Definition clock_goes_forward {W L : Type} (now : W -> Z)
    (c : Controller (W:=W)) (f : retryableOp (W:=W) (L:=L)) : Prop :=
  (forall hook, Tracef c = Some hook ->
   forall ctx format args w, now w <= now (hook ctx format args w))
  /\ (forall ctx w l, now w <= now (fst (snd (f ctx (w, l))))).

(** An argument that a trace line of [get] or [put] may carry: a duration,
    or the address of the request with [<tok>] in the place of the token. *)
Definition harmless_arg {N : Type} (c : Controller (W:=N)) (path : string)
    (arg : Arg) : Prop :=
  match arg with
  | ArgDuration _ => True
  | ArgString s =>
      s = ("http://" ++ ip c ++ ":16021/api/v1/<tok>" ++ path)%string
  end.

(** The sum of the timeouts of the attempts before attempt [k]. *)
Fixpoint waited_before (k : nat) : Duration :=
  match k with
  | O => 0
  | S k' => waited_before k' + timeout_at k'
  end.

Module Faults.

(** No address parses. *)
Definition url_error (url : string) : option error :=
  Some (errorString "invalid URL").

(** Every request ends in a handshake timeout: the [*url.Error] of the
    client reports a timeout, and its chain does not reach
    [context.DeadlineExceeded]. *)
Definition handshake_timeout : error :=
  opError "Put" true (netError "net/http: TLS handshake timeout" true).
Definition Do_handshake_timeout (req : Request) (w : Mock.World)
  : (Response + error) * Mock.World :=
  (inr handshake_timeout, w).

(** Every request exceeds the deadline of its context. *)
Definition deadline_exceeded : error := opError "Put" true DeadlineExceeded.
Definition Do_deadline (req : Request) (w : Mock.World)
  : (Response + error) * Mock.World :=
  (inr deadline_exceeded, w).

(** Every request is answered at once with [r]. *)
Definition Do_answer (r : Response) (req : Request) (w : Mock.World)
  : (Response + error) * Mock.World :=
  (inl r, w).

Definition unavailable : Response :=
  mkResponse 503 "503 Service Unavailable" "" None.

(** A success whose body breaks off while it is read. *)
Definition truncated : Response :=
  mkResponse 200 "200 OK" "{" (Some (errorString "unexpected EOF")).

Definition ok_empty_object : Response := mkResponse 200 "200 OK" "{}" None.

(** A context that never ends, over a world with nothing in it. *)
Definition now (w : unit) : Z := 0.
Definition ctx_Err (ctx : context) (w : unit) : option error := None.
(** An operation that times out at every call, and counts its calls. *)
Definition hang : retryableOp (W:=unit) (L:=nat) :=
  fun ctx '(w, calls) => (Some DeadlineExceeded, (w, S calls)).
Definition plain : Controller (W:=unit) :=
  mkController "192.0.2.7" "token" None.
Definition idle : Sim (W:=unit) (L:=nat) := mkSim tt O [].

(** A context that never ends, over the scripted world. *)
Definition ctx_live (ctx : context) (w : Mock.World) : option error := None.

(** A hook that takes a millisecond to write its line. *)
Definition slow_hook (ctx : context) (format : string) (args : list Arg)
    (w : Mock.World) : Mock.World :=
  Mock.mkWorld (Mock.clock w + Millisecond) (Mock.script w) (Mock.ends w)
               (Mock.ends_with w) (Mock.sink w ++ [format]).
Definition slowly_traced : Controller (W:=Mock.World) :=
  mkController "192.0.2.7" "token" (Some slow_hook).

(** An operation that sleeps until the deadline of its context, and
    counts its calls. *)
Definition sleep : retryableOp (W:=Mock.World) (L:=nat) :=
  fun ctx '(w, calls) =>
    let t := match ctx with
             | WithDeadline _ d => Z.max (Mock.clock w) d
             | Caller _ => Mock.clock w
             end in
    (Some DeadlineExceeded,
     (Mock.mkWorld t (Mock.script w) (Mock.ends w) (Mock.ends_with w)
                   (Mock.sink w), S calls)).

End Faults.

(** The formats of the trace lines of this package. *)
Definition trace_formats : list string :=
  ["Nanoleaf GET to %s"; "Nanoleaf PUT to %s";
   "Nanoleaf operation starting with timeout %v";
   "Nanoleaf operation finished after %v";
   "Nanoleaf operation giving up"].
(* ================================================================= *)
(** ** The sequence of timeouts *)

(** The first eleven timeouts, in nanoseconds. *)
Lemma timeout_values :
  map timeout_at (seq 0 11) =
  [100000000; 150000000; 225000000; 337500000; 506250000; 759375000;
   1139062500; 1708593750; 2562890625; 3844335937; 5000000000].
Proof. vm_compute. reflexivity. Qed.

Lemma next_timeout_maxTimeout : next_timeout maxTimeout = maxTimeout.
Proof. vm_compute. reflexivity. Qed.

Lemma timeout_at_capped (k : nat) : (10 <= k)%nat -> timeout_at k = maxTimeout.
Proof.
  induction 1 as [|k _ IH].
  - vm_compute. reflexivity.
  - simpl. rewrite IH. apply next_timeout_maxTimeout.
Qed.

(** Below the cap the float product is exact, and the conversion back to
    an integer drops the half nanosecond of attempt 9. *)
Lemma timeout_at_small (k : nat) :
  (k < 10)%nat ->
  timeout_at k = baseTimeout * 3 ^ Z.of_nat k / 2 ^ Z.of_nat k /\
  baseTimeout * 3 ^ Z.of_nat k / 2 ^ Z.of_nat k <= maxTimeout.
Proof.
  intros H.
  do 10 (destruct k as [|k]; [vm_compute; split; [reflexivity | discriminate] | ]).
  lia.
Qed.

Lemma pow_ratio_large (k : nat) :
  (10 <= k)%nat -> maxTimeout * 2 ^ Z.of_nat k <= baseTimeout * 3 ^ Z.of_nat k.
Proof.
  induction 1 as [|k _ IH].
  - vm_compute. discriminate.
  - rewrite Nat2Z.inj_succ, !Z.pow_succ_r by lia.
    assert (0 < 2 ^ Z.of_nat k) by (apply Z.pow_pos_nonneg; lia).
    unfold maxTimeout, baseTimeout, Second, Millisecond, Microsecond, Nanosecond in *.
    lia.
Qed.

Lemma timeout_at_closed_form (k : nat) :
  timeout_at k = Z.min (baseTimeout * 3 ^ Z.of_nat k / 2 ^ Z.of_nat k) maxTimeout.
Proof.
  destruct (Nat.lt_ge_cases k 10) as [Hk|Hk].
  - destruct (timeout_at_small Hk) as [E B]. rewrite E. lia.
  - rewrite (timeout_at_capped Hk).
    assert (maxTimeout <= baseTimeout * 3 ^ Z.of_nat k / 2 ^ Z.of_nat k).
    { apply Z.div_le_lower_bound.
      - apply Z.pow_pos_nonneg; lia.
      - rewrite Z.mul_comm. apply pow_ratio_large, Hk. }
    lia.
Qed.

Lemma timeout_at_le_max (k : nat) : timeout_at k <= maxTimeout.
Proof. rewrite timeout_at_closed_form. lia. Qed.

Lemma timeout_at_step (k : nat) : timeout_at k <= timeout_at (S k).
Proof.
  destruct (Nat.lt_ge_cases k 10) as [Hk|Hk].
  - do 10 (destruct k as [|k]; [vm_compute; discriminate | ]). lia.
  - rewrite (timeout_at_capped Hk), (@timeout_at_capped (S k)) by lia. lia.
Qed.

Lemma timeout_at_mono (i j : nat) : (i <= j)%nat -> timeout_at i <= timeout_at j.
Proof.
  induction 1 as [|j _ IH]; [lia|].
  pose proof (timeout_at_step j). lia.
Qed.

(* ================================================================= *)
(** ** Every call of [retry] leaves a [RetryLog] *)

Section RetrierFacts.

Context {W L : Type}.
Variable now : W -> Z.
Variable ctx_Err : context -> W -> option error.

Let Sim := @Sim W L.
Let retryableOp := @retryableOp W L.

Lemma tracef_events (c : Controller (W:=W)) ctx line (s : Sim) :
  events (tracef c ctx line s)
  = events s ++ traced_line (is_set (Tracef c)) ctx line.
Proof.
  unfold tracef, traced_line. destruct (Tracef c); simpl.
  - reflexivity.
  - now rewrite app_nil_r.
Qed.

Lemma tracef_locals (c : Controller (W:=W)) ctx line (s : Sim) :
  locals (tracef c ctx line s) = locals s.
Proof. unfold tracef. now destruct (Tracef c). Qed.

(** One iteration of the loop. *)
Lemma retry_loop_S (c : Controller) ctx (f : retryableOp) fuel timeout
    (s : Sim) :
  retry_loop now ctx_Err c ctx f (S fuel) timeout s
  = let sub := WithTimeout ctx timeout (now (world s)) in
    let s1 := tracef c ctx (line_starting timeout) s in
    let t0 := now (world s1) in
    let '(err, (w2, l2)) := f sub (world s1, locals s1) in
    let s2 := log (EvAttempt (mkAttempt timeout sub t0 err (now w2)))
                  (mkSim w2 l2 (events s1)) in
    if retryableErr err then
      match ctx_Err ctx w2 with
      | Some e =>
          (Returned (Some e),
           tracef c ctx line_giving_up (log (EvCtxErr (Some e)) s2))
      | None =>
          retry_loop now ctx_Err c ctx f fuel (next_timeout timeout)
            (log (EvCtxErr None) s2)
      end
    else (Returned err, tracef c ctx (line_finished (now w2 - t0)) s2).
Proof.
  cbn [retry_loop]. unfold debugf. cbn [rawDebug negb]. cbv zeta.
  destruct (f _ _) as [err [w2 l2]].
  destruct (retryableErr err); cbn [negb]; [|reflexivity].
  unfold log. cbn [world locals events].
  now destruct (ctx_Err ctx w2).
Qed.

Ltac norm_events :=
  repeat progress
    (unfold log; cbn [events world locals fst snd];
     rewrite ?tracef_events);
  rewrite <- ?app_assoc; cbn [app].

Lemma retry_loop_log (c : Controller) ctx (f : retryableOp) fuel :
  forall k (s : Sim),
  exists l,
    events (snd (retry_loop now ctx_Err c ctx f fuel (timeout_at k) s))
    = events s ++ l /\
    RetryLog (is_set (Tracef c)) ctx k l
      (fst (retry_loop now ctx_Err c ctx f fuel (timeout_at k) s)).
Proof.
  induction fuel as [|fuel IH]; intros k s.
  - exists []. simpl. rewrite app_nil_r. split; [reflexivity | constructor].
  - cbn [retry_loop]. unfold debugf. cbn [rawDebug negb].
    set (s1 := tracef c ctx (line_starting (timeout_at k)) s).
    destruct (f _ (world s1, locals s1)) as [err [w2 l2]] eqn:Ef.
    set (a := mkAttempt _ _ _ err _).
    assert (Ha : attempt_of ctx k a).
    { split; [reflexivity | eexists; reflexivity]. }
    destruct (retryableErr err) eqn:Er; cbn [negb].
    + unfold log. cbn [world locals events].
      destruct (ctx_Err ctx w2) as [e|] eqn:Ec.
      * eexists. subst s1. norm_events.
        split; [reflexivity|]. now apply RL_give_up.
      * match goal with
        | |- context [retry_loop _ _ _ _ _ _ _ ?s'] =>
            destruct (IH (S k) s') as (l & El & Hl)
        end.
        cbn [timeout_at] in El, Hl.
        exists (traced_line (is_set (Tracef c)) ctx
                  (line_starting (timeout_at k))
                ++ EvAttempt a :: EvCtxErr None :: l).
        split; [|now apply RL_again].
        rewrite El. subst s1. norm_events. reflexivity.
    + eexists. subst s1. norm_events.
      split; [reflexivity|]. now apply (RL_done _ Ha).
Qed.

End RetrierFacts.

(* ================================================================= *)
(** ** The classifier of errors *)

Lemma error_eqb_eq (a b : error) : error_eqb a b = true <-> a = b.
Proof.
  unfold error_eqb. destruct (error_eq_dec a b); split; congruence.
Qed.

Lemma errors_Is_Chain (e t : error) : errors_Is e t = true <-> Chain e t.
Proof.
  split.
  - induction e; cbn [errors_Is];
      destruct (error_eqb _ t) eqn:E;
      try (apply error_eqb_eq in E; subst; intros; apply Chain_here);
      try discriminate;
      intros H; eapply Chain_next; eauto; reflexivity.
  - induction 1 as [e | e e' t U _ IH].
    + destruct e; cbn [errors_Is];
        match goal with
        | |- context [error_eqb ?x ?x] =>
            replace (error_eqb x x) with true
              by (symmetry; now apply error_eqb_eq)
        end; reflexivity.
    + destruct e; cbn [Unwrap] in U; try discriminate;
        injection U as ->; cbn [errors_Is]; rewrite IH;
        now destruct (error_eqb _ t).
Qed.


(* ================================================================= *)
(** ** What a [RetryLog] tells *)

Lemma attempts_app (l1 l2 : list Event) :
  attempts (l1 ++ l2) = attempts l1 ++ attempts l2.
Proof. apply flat_map_app. Qed.

Lemma ctx_checks_app (l1 l2 : list Event) :
  ctx_checks (l1 ++ l2) = ctx_checks l1 ++ ctx_checks l2.
Proof. apply flat_map_app. Qed.

Lemma trace_calls_app (l1 l2 : list Event) :
  trace_calls (l1 ++ l2) = trace_calls l1 ++ trace_calls l2.
Proof. apply flat_map_app. Qed.

(** Peels the known prefix of [E : e1 :: ... :: l = pre ++ x :: post] off
    [pre], leaving the positions at which [x] can stand. *)
Ltac split_log E :=
  lazymatch type of E with
  | [] = ?pre ++ _ :: _ => destruct pre; discriminate E
  | _ :: _ = ?pre ++ _ :: _ =>
      destruct pre as [|? pre]; cbn [app] in E;
      [ try discriminate E | injection E as <- E; split_log E ]
  | _ => idtac
  end.

Section LogFacts.

Variable traced : bool.
Variable ctx : context.

(** An attempt that does not fail retryably is the last thing the loop
    does, and its result is the result of the loop. *)
Lemma RetryLog_final_attempt k l o :
  RetryLog traced ctx k l o ->
  forall pre a post,
    l = pre ++ EvAttempt a :: post ->
    retryableErr (a_err a) = false ->
    o = Returned (a_err a) /\ attempts post = [] /\ ctx_checks post = [].
Proof.
  induction 1 as [k | k a0 Ha Hr | k a0 e Ha Hr | k a0 l o Ha Hr Hl IH];
    intros pre a post E Hn;
    destruct traced; cbn [traced_line app] in E; split_log E;
    try (injection E as <- <-); try congruence;
    try (now repeat split);
    try (match goal with
         | H : forall _ _ _, _ = _ -> _ |- _ => eapply H; eassumption
         end).
Qed.

(** Once [ctx.Err()] has returned an error the loop makes no attempt and
    no check any more, and returns that error. *)
Lemma RetryLog_gave_up k l o :
  RetryLog traced ctx k l o ->
  forall pre e post,
    l = pre ++ EvCtxErr (Some e) :: post ->
    o = Returned (Some e) /\ attempts post = [] /\ ctx_checks post = [].
Proof.
  induction 1 as [k | k a0 Ha Hr | k a0 e0 Ha Hr | k a0 l o Ha Hr Hl IH];
    intros pre e post E;
    destruct traced; cbn [traced_line app] in E; split_log E;
    try (injection E as <- <-);
    try (now repeat split);
    try (match goal with
         | H : forall _ _ _, _ = _ -> _ |- _ => eapply H; eassumption
         end).
Qed.

(** [ctx.Err()] is evaluated only right after an attempt that failed
    retryably. *)
Lemma RetryLog_check_follows_failure k l o :
  RetryLog traced ctx k l o ->
  forall pre e post,
    l = pre ++ EvCtxErr e :: post ->
    exists pre' a,
      pre = pre' ++ [EvAttempt a] /\ retryableErr (a_err a) = true.
Proof.
  induction 1 as [k | k a0 Ha Hr | k a0 e0 Ha Hr | k a0 l o Ha Hr Hl IH];
    intros pre e post E;
    destruct traced; cbn [traced_line app] in E; split_log E;
    try solve [ exists [], a0; now split | eexists [_], a0; now split ].
  - destruct (IH _ _ _ E) as (pre' & a & -> & Hra).
    now eexists (_ :: _ :: _ :: pre'), a.
  - destruct (IH _ _ _ E) as (pre' & a & -> & Hra).
    now eexists (_ :: _ :: pre'), a.
Qed.

Lemma attempts_traced_line line : attempts (traced_line traced ctx line) = [].
Proof. now destruct traced. Qed.

Lemma ctx_checks_traced_line line :
  ctx_checks (traced_line traced ctx line) = [].
Proof. now destruct traced. Qed.

Lemma attempts_iteration line a rest :
  attempts (traced_line traced ctx line ++ EvAttempt a :: rest)
  = a :: attempts rest.
Proof. now rewrite attempts_app, attempts_traced_line. Qed.

(** Attempt [k + i] of the log runs with [timeout_at (k + i)]. *)
Lemma RetryLog_timeouts k l o :
  RetryLog traced ctx k l o ->
  map a_timeout (attempts l)
  = map timeout_at (seq k (List.length (attempts l))).
Proof.
  induction 1 as [k | k a0 Ha Hr | k a0 e0 Ha Hr | k a0 l o Ha Hr Hl IH];
    [reflexivity | destruct Ha as [Ha _]; rewrite attempts_iteration ..].
  - rewrite attempts_traced_line. cbn. now rewrite Ha.
  - cbn [attempts flat_map]. rewrite attempts_traced_line. cbn.
    now rewrite Ha.
  - cbn [attempts flat_map app]. fold (attempts l). cbn.
    now rewrite Ha, IH.
Qed.

(** The operation is called with a sub-context of [ctx]. *)
Lemma RetryLog_sub k l o :
  RetryLog traced ctx k l o ->
  Forall (fun a => exists d, a_sub a = WithDeadline ctx d) (attempts l).
Proof.
  induction 1 as [k | k a0 Ha Hr | k a0 e0 Ha Hr | k a0 l o Ha Hr Hl IH];
    [constructor | destruct Ha as [_ Ha]; rewrite attempts_iteration ..].
  - rewrite attempts_traced_line. auto.
  - cbn [attempts flat_map]. rewrite attempts_traced_line. auto.
  - cbn [attempts flat_map app]. fold (attempts l). auto.
Qed.

(** All attempts but the last failed retryably. *)
Lemma RetryLog_earlier_attempts k l o :
  RetryLog traced ctx k l o ->
  forall init a, attempts l = init ++ [a] ->
  Forall (fun b => retryableErr (a_err b) = true) init.
Proof.
  induction 1 as [k | k a0 Ha Hr | k a0 e0 Ha Hr | k a0 l o Ha Hr Hl IH];
    intros init a E; [destruct init; discriminate | rewrite attempts_iteration in E ..].
  - rewrite attempts_traced_line in E.
    destruct init as [|? [|? ?]]; [constructor | discriminate..].
  - cbn [attempts flat_map] in E. rewrite attempts_traced_line in E.
    destruct init as [|? [|? ?]]; [constructor | discriminate..].
  - cbn [attempts flat_map app] in E. fold (attempts l) in E.
    destruct init as [|b init].
    + constructor.
    + injection E as <- E. constructor; [assumption|].
      eapply IH; eassumption.
Qed.

Lemma trace_calls_traced_line line :
  trace_calls (traced_line traced ctx line)
  = if traced then [call_of ctx line] else [].
Proof. now destruct traced. Qed.

(** The hook is called when an iteration starts and once when the loop
    ends. *)
Lemma RetryLog_trace_calls k l o :
  RetryLog traced ctx k l o ->
  forall r, o = Returned r ->
  exists init a,
    attempts l = init ++ [a] /\
    trace_calls l
    = if traced
      then map (opening_call ctx) (init ++ [a]) ++ [closing_call ctx a]
      else [].
Proof.
  induction 1 as [k | k a0 Ha Hr | k a0 e0 Ha Hr | k a0 l o Ha Hr Hl IH];
    intros r Eo; [discriminate | destruct Ha as [Ha _] ..].
  - exists [], a0. rewrite attempts_iteration, attempts_traced_line.
    split; [reflexivity|].
    destruct traced; [|reflexivity].
    cbn. unfold opening_call, closing_call. now rewrite Hr, Ha.
  - exists [], a0. rewrite attempts_iteration. cbn [attempts flat_map].
    rewrite attempts_traced_line. split; [reflexivity|].
    destruct traced; [|reflexivity].
    cbn. unfold opening_call, closing_call. now rewrite Hr, Ha.
  - destruct (IH r Eo) as (init & a & Ea & Et).
    exists (a0 :: init), a. rewrite attempts_iteration.
    cbn [attempts flat_map app]. fold (attempts l). rewrite Ea.
    split; [reflexivity|].
    rewrite trace_calls_app, trace_calls_traced_line.
    cbn [trace_calls flat_map app]. fold (trace_calls l). rewrite Et.
    destruct traced; [|reflexivity].
    cbn [map app]. f_equal. unfold opening_call. now rewrite Ha.
Qed.

End LogFacts.

(* ================================================================= *)
(** ** Fuel *)

Section Fuel.

Context {W L : Type}.
Variable now : W -> Z.
Variable ctx_Err : context -> W -> option error.

Let Sim := @Sim W L.
Let retryableOp := @retryableOp W L.

(** [retry] never panics by itself. *)
Lemma retry_loop_no_panic (c : Controller) ctx (f : retryableOp) fuel :
  forall timeout (s : Sim),
    fst (retry_loop now ctx_Err c ctx f fuel timeout s) <> Panicked.
Proof.
  induction fuel as [|fuel IH]; intros timeout s; [discriminate|].
  cbn [retry_loop]. unfold debugf. cbn [rawDebug negb].
  destruct (f _ _) as [err [w2 l2]].
  destruct (retryableErr err); cbn [negb]; [|discriminate].
  unfold log. cbn [world locals events].
  destruct (ctx_Err ctx w2); [discriminate | apply IH].
Qed.

(** A call that returns with some fuel returns the same with more: the
    result does not depend on the fuel, once there is enough. *)
Lemma retry_loop_more_fuel (c : Controller) ctx (f : retryableOp) fuel :
  forall timeout (s : Sim) r,
    fst (retry_loop now ctx_Err c ctx f fuel timeout s) = Returned r ->
    forall more,
      retry_loop now ctx_Err c ctx f (fuel + more) timeout s
      = retry_loop now ctx_Err c ctx f fuel timeout s.
Proof.
  induction fuel as [|fuel IH]; intros timeout s r H more; [discriminate|].
  cbn [retry_loop Nat.add] in *. unfold debugf in *. cbn [rawDebug negb] in *.
  destruct (f _ _) as [err [w2 l2]].
  destruct (retryableErr err); cbn [negb] in *; [|reflexivity].
  unfold log in *. cbn [world locals events] in *.
  destruct (ctx_Err ctx w2); [reflexivity|].
  eapply IH. eassumption.
Qed.

(** A call runs out of fuel only after as many attempts as it had fuel,
    all of which failed retryably under a live umbrella context. *)
Lemma retry_loop_out_of_fuel (c : Controller) ctx (f : retryableOp) fuel :
  forall timeout (s : Sim),
    fst (retry_loop now ctx_Err c ctx f fuel timeout s) = OutOfFuel ->
    exists l,
      events (snd (retry_loop now ctx_Err c ctx f fuel timeout s))
      = events s ++ l
      /\ List.length (attempts l) = fuel
      /\ Forall (fun a => retryableErr (a_err a) = true) (attempts l)
      /\ Forall (fun e => e = None) (ctx_checks l).
Proof.
  induction fuel as [|fuel IH]; intros timeout s H.
  - exists []. cbn. rewrite app_nil_r. now repeat split.
  - cbn [retry_loop] in *. unfold debugf in *. cbn [rawDebug negb] in *.
    set (s1 := tracef c ctx (line_starting timeout) s) in *.
    destruct (f _ (world s1, locals s1)) as [err [w2 l2]].
    destruct (retryableErr err) eqn:Er; cbn [negb] in *; [|discriminate].
    unfold log in *. cbn [world locals events] in *.
    destruct (ctx_Err ctx w2) eqn:Ec; [discriminate|].
    destruct (IH _ _ H) as (l & El & Hn & Ha & Hc).
    eexists. rewrite El. cbn [events]. subst s1.
    rewrite tracef_events, <- !app_assoc. cbn [app].
    split; [reflexivity|].
    rewrite attempts_iteration, ctx_checks_app, ctx_checks_traced_line.
    cbn [app attempts ctx_checks flat_map]. fold (attempts l) (ctx_checks l).
    cbn [List.length]. rewrite Hn.
    repeat split; constructor; auto.
Qed.

End Fuel.

(* ================================================================= *)
(** ** The Retrier *)

Section RetrierClaims.

Context {W L : Type}.
Variable now : W -> Z.
Variable ctx_Err : context -> W -> option error.

Let Sim := @Sim W L.
Let retryableOp := @retryableOp W L.
Let Controller := @Controller W.

Lemma retry_log (c : Controller) ctx (f : retryableOp) fuel (s : Sim) :
  exists l,
    events (snd (retry now ctx_Err c ctx f fuel s)) = events s ++ l /\
    RetryLog (is_set (Tracef c)) ctx 0 l
      (fst (retry now ctx_Err c ctx f fuel s)).
Proof. exact (retry_loop_log now ctx_Err c ctx f fuel 0 s). Qed.

(** C1: when an attempt has failed retryably and [ctx.Err()], evaluated
    next, returns an error [e] (the umbrella context has expired or was
    cancelled), [retry] returns [e] itself, whatever the error of the
    attempt was, and calls the operation and [ctx.Err()] no more. The
    first part says it of one iteration, from the state of the world; the
    second of a whole call, from the events it leaves. *)
Theorem retry_returns_umbrella_error (c : Controller) ctx (f : retryableOp) :
  (forall fuel timeout (s : Sim) err w2 l2 e,
     let s1 := tracef c ctx (line_starting timeout) s in
     f (WithTimeout ctx timeout (now (world s))) (world s1, locals s1)
     = (err, (w2, l2)) ->
     retryableErr err = true ->
     ctx_Err ctx w2 = Some e ->
     let res := retry_loop now ctx_Err c ctx f (S fuel) timeout s in
     fst res = Returned (Some e) /\
     locals (snd res) = l2 /\
     exists l a,
       events (snd res) = events s ++ l /\
       attempts l = [a] /\ a_err a = err /\ ctx_checks l = [Some e])
  /\
  (forall fuel (s : Sim) pre a e post,
     events (snd (retry now ctx_Err c ctx f fuel s))
     = events s ++ pre ++ EvAttempt a :: EvCtxErr (Some e) :: post ->
     retryableErr (a_err a) = true ->
     fst (retry now ctx_Err c ctx f fuel s) = Returned (Some e)
     /\ attempts post = [] /\ ctx_checks post = []).
Proof.
  split.
  - intros fuel timeout s err w2 l2 e s1 Ef Hr Hc res. subst res.
    cbn [retry_loop]. unfold debugf. cbn [rawDebug negb].
    fold s1. rewrite Ef, Hr. unfold log. cbn [negb world]. rewrite Hc.
    cbn [fst snd]. split; [reflexivity|].
    split; [now rewrite tracef_locals|].
    eexists _, _. rewrite tracef_events. cbn [events].
    subst s1. rewrite tracef_events, <- !app_assoc. cbn [app].
    split; [reflexivity|].
    rewrite attempts_iteration. cbn [attempts flat_map].
    rewrite attempts_traced_line.
    rewrite ctx_checks_app, ctx_checks_traced_line.
    cbn [app ctx_checks flat_map].
    rewrite (ctx_checks_traced_line (is_set (Tracef c)) ctx).
    repeat split; reflexivity.
  - intros fuel s pre a e post E _.
    destruct (retry_log c ctx f fuel s) as (l & El & Hl).
    rewrite El in E. apply app_inv_head in E.
    apply (RetryLog_gave_up Hl) with (pre := pre ++ [EvAttempt a]).
    now rewrite <- app_assoc.
Qed.

(** C4: when the first attempt returns [nil] or an error that is not
    retryable, [retry] returns that result after this one call of the
    operation, without looking at the umbrella context; and at any
    iteration, an attempt that returns such a result is the last one and
    its result is the result of [retry]. *)
Theorem retry_stops_at_permanent_result (c : Controller) ctx
    (f : retryableOp) :
  (forall fuel (s : Sim) err wl,
     let s1 := tracef c ctx (line_starting baseTimeout) s in
     f (WithTimeout ctx baseTimeout (now (world s)))
       (world s1, locals s1) = (err, wl) ->
     retryableErr err = false ->
     fst (retry now ctx_Err c ctx f (S fuel) s) = Returned err /\
     exists l a,
       events (snd (retry now ctx_Err c ctx f (S fuel) s)) = events s ++ l
       /\ attempts l = [a] /\ a_err a = err /\ ctx_checks l = [])
  /\
  (forall fuel (s : Sim) pre a post,
     events (snd (retry now ctx_Err c ctx f fuel s))
     = events s ++ pre ++ EvAttempt a :: post ->
     retryableErr (a_err a) = false ->
     fst (retry now ctx_Err c ctx f fuel s) = Returned (a_err a)
     /\ attempts post = [] /\ ctx_checks post = []).
Proof.
  split.
  - intros fuel s err [w2 l2] s1 Ef Hn.
    unfold retry. cbn [retry_loop]. unfold debugf. cbn [rawDebug negb].
    fold s1. rewrite Ef, Hn. cbn [negb fst snd]. split; [reflexivity|].
    eexists _, _. rewrite tracef_events. unfold log. cbn [events].
    subst s1. rewrite tracef_events, <- !app_assoc. cbn [app].
    split; [reflexivity|].
    rewrite attempts_iteration, attempts_traced_line.
    rewrite ctx_checks_app, ctx_checks_traced_line.
    cbn [app ctx_checks flat_map].
    rewrite (ctx_checks_traced_line (is_set (Tracef c)) ctx).
    repeat split; reflexivity.
  - intros fuel s pre a post E Hn.
    destruct (retry_log c ctx f fuel s) as (l & El & Hl).
    rewrite El in E. apply app_inv_head in E.
    eapply RetryLog_final_attempt; eassumption.
Qed.


(** The calls of the hook in one call of [retry]. *)
Lemma retry_trace_calls_of_log (c : Controller) ctx (f : retryableOp) fuel
    (s : Sim) r :
  fst (retry now ctx_Err c ctx f fuel s) = Returned r ->
  exists l init a,
    events (snd (retry now ctx_Err c ctx f fuel s)) = events s ++ l /\
    attempts l = init ++ [a] /\
    trace_calls l
    = if is_set (Tracef c)
      then map (opening_call ctx) (init ++ [a]) ++ [closing_call ctx a]
      else [].
Proof.
  intros Er.
  destruct (retry_log c ctx f fuel s) as (l & El & Hl).
  destruct (RetryLog_trace_calls Hl Er) as (init & a & Ea & Et).
  now exists l, init, a.
Qed.

End RetrierClaims.

(* ================================================================= *)
(** ** The Retrier on scripted worlds *)

(** The caller cancels during the second attempt: [retry] returns
    [context.Canceled], not the timeout of the attempt. *)
Lemma retry_returns_umbrella_error_witness :
  fst (Mock.run Mock.traced 5 Mock.cancelled) = Returned (Some Canceled)
  /\ attempts [EvTrace (call_of (Caller 0) line_giving_up)] = []
  /\ ctx_checks [EvTrace (call_of (Caller 0) line_giving_up)] = [].
Proof.
  refine (proj2 (retry_returns_umbrella_error Mock.now Mock.ctx_Err
                   Mock.traced (Caller 0) Mock.op)
            5%nat Mock.cancelled
            [EvTrace (call_of (Caller 0) (line_starting 100000000));
             EvAttempt (mkAttempt 100000000 (WithDeadline (Caller 0) 100000000)
                                  0 (Some DeadlineExceeded) 100000000);
             EvCtxErr None;
             EvTrace (call_of (Caller 0) (line_starting 150000000))]
            (mkAttempt 150000000 (WithDeadline (Caller 0) 250000000)
                       100000000 (Some DeadlineExceeded) 250000000)
            Canceled
            [EvTrace (call_of (Caller 0) line_giving_up)]
            _ _).
  - vm_compute. reflexivity.
  - vm_compute. reflexivity.
Defined.

(** A refused connection ends [retry] at the first attempt. *)
Lemma retry_stops_at_permanent_result_witness :
  fst (Mock.run Mock.silent 3 Mock.refused)
  = Returned (Some (opError "dial" false (errorString "connection refused")))
  /\ exists l a,
       events (snd (Mock.run Mock.silent 3 Mock.refused))
       = events Mock.refused ++ l
       /\ attempts l = [a]
       /\ a_err a
          = Some (opError "dial" false (errorString "connection refused"))
       /\ ctx_checks l = [].
Proof.
  refine (proj1 (retry_stops_at_permanent_result Mock.now Mock.ctx_Err
                   Mock.silent (Caller 0) Mock.op)
            2%nat Mock.refused _ _ _ _).
  - vm_compute. reflexivity.
  - vm_compute. reflexivity.
Defined.

(** The operation is called although the caller's context had expired
    before [retry] was entered, and its success is returned. *)
Example retry_on_expired_context :
  fst (Mock.run Mock.silent 3 Mock.expired_on_entry) = Returned None
  /\ Mock.ctx_Err (Caller 0) (world Mock.expired_on_entry)
     = Some DeadlineExceeded
  /\ locals (snd (Mock.run Mock.silent 3 Mock.expired_on_entry)) = 1%nat
  /\ ctx_checks (events (snd (Mock.run Mock.silent 3 Mock.expired_on_entry)))
     = [].
Proof. vm_compute. repeat split; reflexivity. Qed.

(** When the attempt itself fails with the cancellation of its context,
    which is not retryable, [retry] returns the error of the attempt and
    does not look at the umbrella context. *)
Example retry_cancelled_attempt :
  let cancelled_put :=
    wrapError "making HTTP request" (opError "Put" false Canceled) in
  let s := Mock.start [Mock.fails (40 * Millisecond) cancelled_put]
                      (30 * Millisecond) Canceled in
  fst (Mock.run Mock.silent 3 s) = Returned (Some cancelled_put)
  /\ ctx_checks (events (snd (Mock.run Mock.silent 3 s))) = [].
Proof. vm_compute. split; reflexivity. Qed.

(** C5, refuted as stated: in a call that makes two attempts the hook is
    called three times, twice with the starting line; and the closing line
    carries the 30ms of the last attempt, not the 130ms of the call. *)
Lemma trace_hook_called_per_attempt :
  fst (Mock.run Mock.traced 5 Mock.timeout_then_success) = Returned None
  /\ trace_calls (events (snd (Mock.run Mock.traced 5 Mock.timeout_then_success)))
     = [call_of (Caller 0) (line_starting (100 * Millisecond));
        call_of (Caller 0) (line_starting (150 * Millisecond));
        call_of (Caller 0) (line_finished (30 * Millisecond))]
  /\ List.length
       (trace_calls
          (events (snd (Mock.run Mock.traced 5 Mock.timeout_then_success))))
     <> 2%nat
  /\ Mock.now (world (snd (Mock.run Mock.traced 5 Mock.timeout_then_success)))
     - Mock.now (world Mock.timeout_then_success)
     = 130 * Millisecond.
Proof. vm_compute. repeat split; try reflexivity. discriminate. Qed.


(* ================================================================= *)
(** ** Injected failures *)

(** Two worlds with the same view differ by their sinks only. *)
Lemma Mock_view_inv (w1 w2 : Mock.World) :
  Mock.view w1 = Mock.view w2 ->
  Mock.clock w1 = Mock.clock w2 /\ Mock.script w1 = Mock.script w2
  /\ Mock.ends w1 = Mock.ends w2 /\ Mock.ends_with w1 = Mock.ends_with w2.
Proof. unfold Mock.view. intros H. injection H as -> -> -> ->. auto. Qed.

Lemma Mock_tracef_view (c : Controller (W:=Mock.World)) ctx line
    (s : Sim (W:=Mock.World) (L:=nat)) :
  hook_frames Mock.view c ->
  Mock.view (world (tracef c ctx line s)) = Mock.view (world s).
Proof.
  intros Hh. unfold tracef. destruct (Tracef c) as [hook|] eqn:E.
  - cbn [world]. now apply Hh.
  - reflexivity.
Qed.

(** For every sequence of retryable failures followed by one success,
    injected into a world where the caller's context outlives them,
    [retry] returns the success after one call of the operation for each
    entry of the sequence. *)
Lemma Mock_failures_then_success (c : Controller (W:=Mock.World))
    (failures : list (Duration * error)) (took : Duration) :
  hook_frames Mock.view c ->
  Forall (fun p => 0 <= fst p /\ retryableErr (Some (snd p)) = true)
         failures ->
  forall timeout (s : Sim (W:=Mock.World) (L:=nat)),
    Mock.script (world s)
    = map (fun p => Mock.fails (fst p) (snd p)) failures
      ++ [Mock.succeeds took] ->
    Mock.clock (world s) + fold_right Z.add 0 (map fst failures)
    < Mock.ends (world s) ->
    exists s',
      retry_loop Mock.now Mock.ctx_Err c (Caller 0) Mock.op
        (S (List.length failures)) timeout s
      = (Returned None, s')
      /\ locals s' = (locals s + S (List.length failures))%nat
      /\ List.length (attempts (events s'))
         = (List.length (attempts (events s)) + S (List.length failures))%nat.
Proof.
  intros Hh Hf. induction Hf as [|[d err] failures [Hd Hr] Hf' IH];
    intros timeout s Hs Hc.
  - cbn [List.length]. rewrite retry_loop_S. cbv zeta.
    pose proof (Mock_tracef_view (Caller 0) (line_starting timeout) s Hh)
      as Hv.
    set (s1 := tracef c (Caller 0) (line_starting timeout) s) in *.
    assert (Hs1 : Mock.script (world s1) = [Mock.succeeds took]).
    { apply Mock_view_inv in Hv as (_ & E & _). now rewrite E. }
    assert (Hl1 : locals s1 = locals s) by (subst s1; apply tracef_locals).
    unfold Mock.op, Mock.exchange. rewrite Hs1.
    cbn [Mock.succeeds Mock.answers retryableErr fst snd].
    eexists. split; [reflexivity|].
    rewrite tracef_locals, tracef_events. unfold log. cbn [locals events].
    subst s1. rewrite tracef_events, !attempts_app, !attempts_traced_line.
    cbn [attempts flat_map]. rewrite !app_nil_r, !length_app.
    cbn [List.length]. split; lia.
  - cbn [fst snd] in Hd, Hr.
    cbn [List.length]. rewrite retry_loop_S. cbv zeta.
    pose proof (Mock_tracef_view (Caller 0) (line_starting timeout) s Hh)
      as Hv.
    set (s1 := tracef c (Caller 0) (line_starting timeout) s) in *.
    apply Mock_view_inv in Hv as (Ec & Es & Ee & Ew).
    assert (Hl1 : locals s1 = locals s) by (subst s1; apply tracef_locals).
    cbn [map app fst snd fold_right] in Hs, Hc. rewrite Hs in Es.
    unfold Mock.op at 1, Mock.exchange. rewrite Es.
    cbn [Mock.fails fst snd]. rewrite Hr.
    unfold Mock.ctx_Err at 1. cbn [Mock.ends Mock.clock].
    match type of Hc with
    | context [fold_right ?g ?z ?l] => assert (Hsum : 0 <= fold_right g z l)
    end.
    { clear -Hf'. unfold Duration in *.
      induction Hf' as [|p l [Hp _] _ IHl]; cbn [map fold_right]; lia. }
    unfold Duration in *.
    replace (Mock.ends (world s1) <=? Mock.clock (world s1) + d) with false
      by (symmetry; apply Z.leb_gt; lia).
    match goal with
    | |- context [retry_loop _ _ _ _ _ _ ?t ?s3] =>
        destruct (IH t s3) as (s4 & H1 & H2 & H3)
    end.
    + reflexivity.
    + unfold log. cbn [world Mock.clock Mock.ends]. lia.
    + exists s4. split; [exact H1|]. rewrite H2, H3.
      unfold log. cbn [locals events]. subst s1.
      rewrite tracef_events, !attempts_app, !attempts_traced_line.
      cbn [attempts flat_map]. rewrite !app_nil_r, !length_app.
      cbn [List.length]. split; lia.
Qed.

(** Three injected timeouts, then a success. *)
Example three_timeouts_then_success :
  exists s',
    Mock.run Mock.traced 4
      (Mock.start [Mock.fails (100 * Millisecond) DeadlineExceeded;
                   Mock.fails (150 * Millisecond)
                     (netError "i/o timeout" true);
                   Mock.fails (225 * Millisecond)
                     (wrapError "making HTTP request"
                        (opError "Put" true DeadlineExceeded));
                   Mock.succeeds (20 * Millisecond)]
                  (60 * Second) DeadlineExceeded)
    = (Returned None, s')
    /\ locals s' = 4%nat
    /\ map a_timeout (attempts (events s'))
       = [100 * Millisecond; 150 * Millisecond; 225 * Millisecond;
          337500 * Microsecond].
Proof. eexists. vm_compute. repeat split; reflexivity. Qed.

(** C2, as the code has it: the attempts of a call of [retry] run with
    the timeouts [timeout_at 0], [timeout_at 1], ... in this order; the
    sequence starts at 100ms, never decreases, never exceeds 5s, and its
    term [k] is [min(100ms * 1.5^k, 5s)] rounded down to a whole number of
    nanoseconds; when the last attempt made succeeds, all attempts before
    it failed retryably and [retry] returns [nil]; and for every sequence
    of retryable failures followed by one success, injected while the
    umbrella context lives, [retry] makes one attempt for each of them
    and returns [nil]. *)
Theorem retry_timeouts {W L : Type}
    (now : W -> Z) (ctx_Err : context -> W -> option error)
    (c : Controller (W:=W)) ctx (f : retryableOp (W:=W) (L:=L)) fuel
    (s : Sim (W:=W) (L:=L)) :
  (exists l,
     events (snd (retry now ctx_Err c ctx f fuel s)) = events s ++ l /\
     map a_timeout (attempts l)
     = map timeout_at (seq 0 (List.length (attempts l))) /\
     forall init a,
       attempts l = init ++ [a] -> a_err a = None ->
       Forall (fun b => retryableErr (a_err b) = true) init /\
       fst (retry now ctx_Err c ctx f fuel s) = Returned None)
  /\ timeout_at 0 = 100 * Millisecond
  /\ (forall i j, (i <= j)%nat -> timeout_at i <= timeout_at j)
  /\ (forall k, timeout_at k <= 5 * Second)
  /\ (forall k,
        timeout_at k
        = Z.min (100 * Millisecond * 3 ^ Z.of_nat k / 2 ^ Z.of_nat k)
                (5 * Second))
  /\ (forall (mc : Controller (W:=Mock.World)) failures took ends ends_with,
        hook_frames Mock.view mc ->
        Forall (fun p => 0 <= fst p /\ retryableErr (Some (snd p)) = true)
               failures ->
        fold_right Z.add 0 (map fst failures) < ends ->
        exists s',
          Mock.run mc (S (List.length failures))
            (Mock.start (map (fun p => Mock.fails (fst p) (snd p)) failures
                         ++ [Mock.succeeds took]) ends ends_with)
          = (Returned None, s')
          /\ locals s' = S (List.length failures)
          /\ map a_timeout (attempts (events s'))
             = map timeout_at (seq 0 (S (List.length failures)))).
Proof.
  split; [|split; [reflexivity | split; [exact timeout_at_mono |
           split; [exact timeout_at_le_max |
           split; [exact timeout_at_closed_form|]]]]].
  - destruct (retry_log now ctx_Err c ctx f fuel s) as (l & El & Hl).
    exists l. split; [exact El|]. split; [exact (RetryLog_timeouts Hl)|].
    intros init a Ea Hs. split; [eapply RetryLog_earlier_attempts; eassumption|].
    assert (In (EvAttempt a) l) as Hin.
    { unfold attempts in Ea.
      assert (Hia : In a (flat_map (fun ev => match ev with
                                     | EvAttempt a => [a] | _ => [] end) l)).
      { rewrite Ea. apply in_or_app. right. now left. }
      apply in_flat_map in Hia. destruct Hia as (ev & Hev & Ha).
      destruct ev; cbn in Ha; try contradiction.
      destruct Ha as [->|[]]. exact Hev. }
    apply in_split in Hin. destruct Hin as (pre & post & Epp).
    assert (Hn : retryableErr (a_err a) = false) by now rewrite Hs.
    destruct (RetryLog_final_attempt Hl _ _ _ Epp Hn) as (Eo & _).
    now rewrite Eo, Hs.
  - intros mc failures took ends ends_with Hh Hf Hsum.
    destruct (Mock_failures_then_success took Hh Hf baseTimeout
                (Mock.start (map (fun p => Mock.fails (fst p) (snd p)) failures
                             ++ [Mock.succeeds took]) ends ends_with)
                eq_refl Hsum) as (s' & Hrun & Hloc & Hlen).
    exists s'. split; [exact Hrun|]. split; [exact Hloc|].
    destruct (retry_log Mock.now Mock.ctx_Err mc (Caller 0) Mock.op
                (S (List.length failures))
                (Mock.start (map (fun p => Mock.fails (fst p) (snd p))
                               failures ++ [Mock.succeeds took])
                            ends ends_with)) as (l & El & Hl).
    match type of El with
    | events (snd ?X) = _ =>
        assert (Hrun' : X = (Returned None, s')) by exact Hrun;
        rewrite Hrun' in El, Hl
    end.
    cbn [fst snd] in El, Hl.
    cbn [Mock.start events app] in El. rewrite El in *.
    rewrite (RetryLog_timeouts Hl). cbn [Mock.start events attempts flat_map
                                         List.length Nat.add] in Hlen.
    now rewrite Hlen.
Qed.


(** C2, refuted as stated: the tenth attempt runs with 3844335937ns, and
    [100ms * 1.5^9] is 3844335937.5ns. *)
Lemma tenth_timeout_is_rounded :
  exists a,
    nth_error (attempts (events (snd (Mock.run Mock.silent 10 Mock.hanging))))
              9
    = Some a
    /\ a_timeout a = 3844335937
    /\ ~ (inject_Z (a_timeout a) == spec_timeout 9)%Q.
Proof.
  eexists. split; [vm_compute; reflexivity|].
  split; [reflexivity|].
  vm_compute. intro H. discriminate H.
Qed.

(** One timeout, then a success: [retry] returns [nil]. *)
Lemma retry_timeouts_witness :
  Forall (fun b => retryableErr (a_err b) = true)
         [mkAttempt 100000000 (WithDeadline (Caller 0) 100000000)
                    0 (Some DeadlineExceeded) 100000000]
  /\ fst (Mock.run Mock.silent 5 Mock.timeout_then_success) = Returned None.
Proof.
  destruct (proj1 (retry_timeouts Mock.now Mock.ctx_Err Mock.silent
                     (Caller 0) Mock.op 5%nat Mock.timeout_then_success))
    as (l & El & _ & H).
  vm_compute in El. subst l.
  refine (H _ (mkAttempt 150000000 (WithDeadline (Caller 0) 250000000)
                         100000000 None 130000000) _ _);
    vm_compute; reflexivity.
Defined.


(* ================================================================= *)
(** ** The trace hook is an observer *)

Section HookIndependence.

Context {W L V : Type}.
Variable now : W -> Z.
Variable ctx_Err : context -> W -> option error.
Variable view : W -> V.

Let Sim := @Sim W L.
Let retryableOp := @retryableOp W L.
Let Controller := @Controller W.

Lemma program_events_app (l1 l2 : list Event) :
  program_events (l1 ++ l2) = program_events l1 ++ program_events l2.
Proof. apply filter_app. Qed.

Lemma Agree_tracef_l (c : Controller) ctx line (s1 s2 : Sim) :
  hook_frames view c ->
  Agree view s1 s2 -> Agree view (tracef c ctx line s1) s2.
Proof.
  intros Hh (Hv & Hl & He). unfold tracef.
  destruct (Tracef c) as [hook|] eqn:Eh; [|now repeat split].
  repeat split; cbn [world locals events].
  - now rewrite (Hh hook Eh).
  - exact Hl.
  - rewrite program_events_app. cbn. now rewrite app_nil_r.
Qed.

Lemma tracef_without_hook (c : Controller) ctx line (s : Sim) :
  tracef (without_hook c) ctx line s = s.
Proof. reflexivity. Qed.

Lemma Agree_log ev (w1 w2 : W) (l : L) (ev1 ev2 : list Event) :
  view w1 = view w2 ->
  program_events ev1 = program_events ev2 ->
  Agree view (log ev (mkSim w1 l ev1)) (log ev (mkSim w2 l ev2)).
Proof.
  intros Hv He. repeat split; cbn [log world locals events]; try assumption.
  now rewrite !program_events_app, He.
Qed.

(** With and without the hook the loop makes the same attempts, takes the
    same decisions and returns the same result. *)
Lemma retry_loop_hook_irrelevant (c : Controller) ctx (f : retryableOp) :
  hook_frames view c ->
  op_respects_view view f ->
  (forall ctx, respects_view view (ctx_Err ctx)) ->
  respects_view view now ->
  forall fuel timeout (s1 s2 : Sim),
    Agree view s1 s2 ->
    fst (retry_loop now ctx_Err c ctx f fuel timeout s1)
    = fst (retry_loop now ctx_Err (without_hook c) ctx f fuel timeout s2)
    /\ Agree view
         (snd (retry_loop now ctx_Err c ctx f fuel timeout s1))
         (snd (retry_loop now ctx_Err (without_hook c) ctx f fuel timeout s2)).
Proof.
  intros Hh Hf Hc Hn.
  induction fuel as [|fuel IH]; intros timeout s1 s2 Ha.
  - now split.
  - cbn [retry_loop]. unfold debugf. cbn [rawDebug negb].
    rewrite !tracef_without_hook.
    pose proof (Agree_tracef_l ctx (line_starting timeout) Hh Ha) as Ha1.
    set (s1a := tracef c ctx (line_starting timeout) s1) in *.
    destruct Ha as (Hv & _ & _). destruct Ha1 as (Hv1 & Hl1 & He1).
    rewrite (Hn _ _ Hv), (Hn _ _ Hv1), Hl1.
    set (sub := WithTimeout ctx timeout (now (world s2))).
    destruct (Hf sub _ _ (locals s2) Hv1) as (Hfe & Hfv & Hfl).
    destruct (f sub (world s1a, locals s2)) as [err1 [w1 l1]].
    destruct (f sub (world s2, locals s2)) as [err2 [w2 l2]].
    cbn [fst snd] in Hfe, Hfv, Hfl. subst err2 l2.
    rewrite (Hn _ _ Hfv).
    set (a := mkAttempt _ _ _ err1 _).
    pose proof (@Agree_log (EvAttempt a) w1 w2 l1 _ _ Hfv He1) as Ha2.
    destruct (retryableErr err1); cbn [negb].
    + change (world (log (EvAttempt a) (mkSim w1 l1 (events s1a)))) with w1.
      change (world (log (EvAttempt a) (mkSim w2 l1 (events s2)))) with w2.
      rewrite (Hc ctx _ _ Hfv).
      set (cerr := ctx_Err ctx w2).
      assert (Ha3 : Agree view
                (log (EvCtxErr cerr)
                   (log (EvAttempt a) (mkSim w1 l1 (events s1a))))
                (log (EvCtxErr cerr)
                   (log (EvAttempt a) (mkSim w2 l1 (events s2))))).
      { destruct Ha2 as (Hv2 & Hl2 & He2).
        unfold log in *. cbn [world locals events] in *.
        repeat split; cbn [world locals events]; try assumption.
        now rewrite (program_events_app (_ ++ _)), He2, <- program_events_app. }
      destruct cerr as [e|].
      * cbn [fst snd]. split; [reflexivity|].
        rewrite tracef_without_hook. now apply Agree_tracef_l.
      * now apply IH.
    + cbn [fst snd]. split; [reflexivity|].
      rewrite tracef_without_hook. now apply Agree_tracef_l.
Qed.

End HookIndependence.

(* ================================================================= *)
(** ** The operations of the Controller *)

Section DeviceFacts.

Context {N : Type}.
Variable now : N -> Z.
Variable ctx_Err : context -> N -> option error.
Variable url_error : string -> option error.
Variable Do : Request -> N -> (Response + error) * N.
Variable json_Unmarshal : string -> State -> option string * State.

Let Controller := @Controller N.
Let Sim := @Sim N OpState.

(** An attempt leaves a response in [resp] exactly when it returns [nil]:
    the answer of the client to its request; and it decodes nothing. *)
Lemma http_attempt_resp (c : Controller) method path body sub w l :
  resp l = None ->
  match fst (http_attempt url_error Do c method path body sub (w, l)) with
  | None =>
      exists r,
        resp (snd (snd (http_attempt url_error Do c method path body sub (w, l))))
        = Some r
        /\ answered Do c method path body r
  | Some _ =>
      resp (snd (snd (http_attempt url_error Do c method path body sub (w, l))))
      = None
  end
  /\ decoded (snd (snd (http_attempt url_error Do c method path body sub (w, l))))
     = decoded l.
Proof.
  intros Hr. unfold http_attempt, http_NewRequestWithContext.
  destruct (url_error _) as [e|]; [now split|].
  unfold set_Close. cbn [Method URL ReqBody ReqCtx].
  destruct (Do _ w) as [[r|e] w'] eqn:E; cbn; split; eauto.
  exists r. split; [reflexivity|]. now exists sub, w, w'.
Qed.

(** When [retry] returns [nil] to [get] or [put] the variable [resp] holds
    a response, the answer of the client to the last request: the
    dereference that follows cannot panic. Otherwise it is [nil]. *)
Lemma retry_loop_http_resp (c : Controller) ctx method path body fuel :
  forall timeout (s : Sim),
    resp (locals s) = None ->
    let res := retry_loop now ctx_Err c ctx
                 (http_attempt url_error Do c method path body)
                 fuel timeout s in
    match fst res with
    | Returned None =>
        exists r, resp (locals (snd res)) = Some r
                  /\ answered Do c method path body r
    | _ => resp (locals (snd res)) = None
    end
    /\ decoded (locals (snd res)) = decoded (locals s).
Proof.
  induction fuel as [|fuel IH]; intros timeout s Hr; [now split|].
  cbn [retry_loop]. unfold debugf. cbn [rawDebug negb].
  set (s1 := tracef c ctx (line_starting timeout) s).
  assert (Hr1 : resp (locals s1) = None)
    by (subst s1; now rewrite tracef_locals).
  assert (Hd1 : decoded (locals s1) = decoded (locals s))
    by (subst s1; now rewrite tracef_locals).
  pose proof (http_attempt_resp c method path body
                (WithTimeout ctx timeout (now (world s)))
                (world s1) (locals s1) Hr1) as [Ha Hd].
  destruct (http_attempt _ _ _ _ _ _ _ (world s1, locals s1))
    as [err [w2 l2]].
  cbn [fst snd] in Ha, Hd.
  destruct err as [err|].
  - destruct (retryableErr (Some err)); cbn [negb].
    + unfold log. cbn [world locals events].
      destruct (ctx_Err ctx w2) as [e|].
      * cbn [fst snd]. rewrite tracef_locals. cbn [locals].
        split; congruence.
      * match goal with
        | |- context [retry_loop _ _ _ _ _ _ ?t ?s'] =>
            destruct (IH t s' Ha) as [H1 H2]
        end.
        split; [exact H1|]. rewrite H2. cbn [locals]. congruence.
    + cbn [fst snd]. rewrite tracef_locals. unfold log. cbn [locals].
      split; congruence.
  - cbn [retryableErr negb fst snd]. rewrite tracef_locals.
    unfold log. cbn [locals]. split; [exact Ha | congruence].
Qed.

(** The events of [put]: its own trace line, then those of [retry]. *)
Lemma put_log (c : Controller) ctx path obj fuel (s : Sim) :
  exists l o,
    events (snd (put now ctx_Err url_error Do c ctx path obj fuel s))
    = events s ++ traced_line (is_set (Tracef c)) ctx (line_put c path) ++ l
    /\ RetryLog (is_set (Tracef c)) ctx 0 l o
    /\ forall r,
         fst (put now ctx_Err url_error Do c ctx path obj fuel s)
         = Returned r ->
         exists r', o = Returned r'.
Proof.
  unfold put, json_Marshal, debugf. cbn [rawDebug negb].
  set (s0 := declare_resp (tracef c ctx _ s)).
  assert (E0 : events s0
               = events s ++ traced_line (is_set (Tracef c)) ctx
                               (line_put c path))
    by (subst s0; cbn [declare_resp events]; apply tracef_events).
  destruct (retry_loop_log now ctx_Err c ctx
              (http_attempt url_error Do c "PUT" path
                 (Some (render (to_json obj)))) fuel 0 s0)
    as (l & El & Hl).
  change (timeout_at 0) with baseTimeout in El, Hl. fold (retry now ctx_Err c ctx
    (http_attempt url_error Do c "PUT" path (Some (render (to_json obj))))
    fuel s0) in El, Hl.
  destruct (retry _ _ _ _ _ _ s0) as [o s1]. cbn [fst snd] in El, Hl.
  exists l, o. rewrite E0, <- app_assoc in El.
  destruct o as [[err|]| |]; cbn [fst snd];
    try (split; [exact El | split; [exact Hl | intros; eauto; discriminate]]).
  destruct (resp (locals s1)) as [r0|];
    [destruct (StatusCode r0 >=? 300)|];
    cbn [fst snd]; (split; [exact El | split; [exact Hl | intros; eauto]]).
Qed.

(** The events of [get]: its own trace line, then those of [retry]. *)
Lemma get_log (c : Controller) ctx path dst fuel (s : Sim) :
  exists l o,
    events (snd (get now ctx_Err url_error Do json_Unmarshal c ctx path dst
                   fuel s))
    = events s ++ traced_line (is_set (Tracef c)) ctx (line_get c path) ++ l
    /\ RetryLog (is_set (Tracef c)) ctx 0 l o
    /\ forall r,
         fst (fst (get now ctx_Err url_error Do json_Unmarshal c ctx path
                     dst fuel s))
         = Returned r ->
         exists r', o = Returned r'.
Proof.
  unfold get, debugf. cbn [rawDebug negb].
  set (s0 := declare_resp (tracef c ctx _ s)).
  assert (E0 : events s0
               = events s ++ traced_line (is_set (Tracef c)) ctx
                               (line_get c path))
    by (subst s0; cbn [declare_resp events]; apply tracef_events).
  destruct (retry_loop_log now ctx_Err c ctx
              (http_attempt url_error Do c "GET" path None) fuel 0 s0)
    as (l & El & Hl).
  change (timeout_at 0) with baseTimeout in El, Hl. fold (retry now ctx_Err c ctx
    (http_attempt url_error Do c "GET" path None) fuel s0) in El, Hl.
  destruct (retry _ _ _ _ _ _ s0) as [o s1]. cbn [fst snd] in El, Hl.
  exists l, o. rewrite E0, <- app_assoc in El.
  destruct o as [[err|]| |]; cbn [fst snd];
    try (split; [exact El | split; [exact Hl | intros; eauto; discriminate]]).
  destruct (resp (locals s1)) as [r0|];
    [destruct (StatusCode r0 >=? 300); [|destruct (BodyErr r0);
       [|destruct (json_Unmarshal (Body r0) dst)]]|];
    cbn [fst snd note_decoded events];
    (split; [exact El | split; [exact Hl | intros; eauto]]).
Qed.

(** The dereference of [resp] after [retry] never panics. *)
Lemma put_no_panic (c : Controller) ctx path obj fuel (s : Sim) :
  fst (put now ctx_Err url_error Do c ctx path obj fuel s) <> Panicked.
Proof.
  unfold put, json_Marshal, retry, debugf. cbn [rawDebug negb].
  set (s0 := declare_resp (tracef c ctx _ s)).
  destruct (retry_loop_http_resp c ctx "PUT" path
              (Some (render (to_json obj))) fuel baseTimeout s0 eq_refl)
    as [Hres _].
  pose proof (@retry_loop_no_panic N OpState now ctx_Err c ctx
                (http_attempt url_error Do c "PUT" path
                   (Some (render (to_json obj)))) fuel baseTimeout s0) as Hp.
  destruct (retry_loop _ _ _ _ _ _ _ s0) as [o s1].
  cbn [fst snd] in *.
  destruct o as [[err|]| |]; try discriminate; [|contradiction].
  destruct Hres as (r0 & -> & _). now destruct (StatusCode r0 >=? 300).
Qed.

End DeviceFacts.

Section DeviceClaims.

Context {N : Type}.
Variable now : N -> Z.
Variable ctx_Err : context -> N -> option error.
Variable url_error : string -> option error.
Variable Do : Request -> N -> (Response + error) * N.
Variable json_Unmarshal : string -> State -> option string * State.

Let Controller := @Controller N.
Let Sim := @Sim N OpState.

(** The four ways in which [get] ends. *)
Lemma get_cases (c : Controller) ctx path dst fuel (s : Sim) :
  let out := get now ctx_Err url_error Do json_Unmarshal c ctx path dst fuel s in
  let res := fst (fst out) in
  let dst' := snd (fst out) in
  let s' := snd out in
  (resp (locals s') = None
   /\ decoded (locals s') = decoded (locals s) /\ dst' = dst)
  \/ (exists r,
        resp (locals s') = Some r /\ 300 <= StatusCode r
        /\ res = Returned (Some (errorString ("HTTP response " ++ Status r)))
        /\ decoded (locals s') = decoded (locals s) /\ dst' = dst
        /\ answered Do c "GET" path None r)
  \/ (exists r e,
        resp (locals s') = Some r /\ StatusCode r < 300
        /\ BodyErr r = Some e
        /\ res = Returned (Some (wrapError "reading HTTP response body" e))
        /\ decoded (locals s') = decoded (locals s) /\ dst' = dst
        /\ answered Do c "GET" path None r)
  \/ (exists r,
        resp (locals s') = Some r /\ StatusCode r < 300
        /\ BodyErr r = None
        /\ res = Returned (option_map jsonError
                             (fst (json_Unmarshal (Body r) dst)))
        /\ decoded (locals s') = decoded (locals s) ++ [Body r]
        /\ dst' = snd (json_Unmarshal (Body r) dst)
        /\ answered Do c "GET" path None r).
Proof.
  intros out res dst' s'. subst res dst' s' out.
  unfold get, retry, debugf. cbn [rawDebug negb].
  set (s0 := declare_resp (tracef c ctx _ s)).
  assert (Hd0 : decoded (locals s0) = decoded (locals s))
    by (subst s0; cbn; now rewrite tracef_locals).
  destruct (retry_loop_http_resp now ctx_Err url_error Do c ctx
              "GET" path None fuel baseTimeout s0 eq_refl) as [Hres Hdec].
  destruct (retry_loop _ _ _ _ _ _ _ s0) as [o s1].
  cbn [fst snd] in Hres, Hdec. rewrite Hd0 in Hdec.
  destruct o as [[err|]| |]; cbn [fst snd]; try (left; now repeat split).
  destruct Hres as (r0 & Hr0 & Hans). rewrite Hr0.
  destruct (StatusCode r0 >=? 300) eqn:Est; cbn [fst snd].
  - apply Z.geb_le in Est. right; left. exists r0. now repeat split.
  - assert (StatusCode r0 < 300)
      by (rewrite Z.geb_leb in Est; apply Z.leb_gt in Est; lia).
    destruct (BodyErr r0) as [e|] eqn:Eb; cbn [fst snd].
    + right; right; left. exists r0, e. now repeat split.
    + right; right; right. exists r0.
      destruct (json_Unmarshal (Body r0) dst) as [msg d'] eqn:Eu.
      cbn [fst snd note_decoded locals resp decoded].
      rewrite Hdec. now repeat split.
Qed.

(** C7: [get] hands the body to [json.Unmarshal] only when the response it
    obtained has a status below 300. With a status of 300 or more it
    returns the error "HTTP response <status text>", whatever the body
    is, decodes nothing and leaves the destination alone; with a status
    below 300 and a body read in full it decodes that body once and returns
    what the decoder returns. A decoding error and a status error are
    never the same error. The response is the one that [resp] holds when
    [get] returns: the answer of the HTTP client to a GET of the path. *)
Theorem get_decodes_only_below_300 (c : Controller) ctx path dst fuel
    (s : Sim) :
  let out := get now ctx_Err url_error Do json_Unmarshal c ctx path dst fuel s in
  let res := fst (fst out) in
  let dst' := snd (fst out) in
  let s' := snd out in
  (forall r,
     resp (locals s') = Some r -> 300 <= StatusCode r ->
     res = Returned (Some (errorString ("HTTP response " ++ Status r)))
     /\ decoded (locals s') = decoded (locals s)
     /\ dst' = dst)
  /\ (forall r,
        resp (locals s') = Some r -> StatusCode r < 300 ->
        BodyErr r = None ->
        decoded (locals s') = decoded (locals s) ++ [Body r]
        /\ res = Returned (option_map jsonError
                             (fst (json_Unmarshal (Body r) dst)))
        /\ dst' = snd (json_Unmarshal (Body r) dst))
  /\ (decoded (locals s') <> decoded (locals s) ->
      exists r, resp (locals s') = Some r /\ StatusCode r < 300)
  /\ (forall r, resp (locals s') = Some r -> answered Do c "GET" path None r)
  /\ (forall msg status,
        jsonError msg <> errorString ("HTTP response " ++ status)).
Proof.
  intros out res dst' s'.
  pose proof (get_cases c ctx path dst fuel s) as H.
  cbv zeta in H. fold out in H. fold res dst' s' in H.
  clearbody res dst' s'. clear out.
  split; [|split; [|split; [|split]]].
  - intros r Hr Hs.
    destruct H as [(H & _)|[(r0 & H & ? & ? & ? & ? & _)
                  |[(r0 & e & H & ? & _)|(r0 & H & ? & _)]]];
      rewrite Hr in H; try discriminate; injection H as ->;
      try lia; now repeat split.
  - intros r Hr Hs Hb.
    destruct H as [(H & _)|[(r0 & H & ? & _)|[(r0 & e & H & ? & ? & _)
                  |(r0 & H & ? & ? & ? & ? & ? & _)]]];
      rewrite Hr in H; try discriminate; injection H as ->;
      try lia; try congruence; now repeat split.
  - intros Hd.
    destruct H as [(_ & H & _)|[(r0 & _ & _ & _ & H & _)
                  |[(r0 & e & _ & _ & _ & _ & H & _)|(r0 & H & ? & _)]]];
      try contradiction. now exists r0.
  - intros r Hr.
    destruct H as [(H & _)|[(r0 & H & _ & _ & _ & _ & Ha)
                  |[(r0 & e & H & _ & _ & _ & _ & _ & Ha)
                   |(r0 & H & _ & _ & _ & _ & _ & Ha)]]];
      rewrite Hr in H; try discriminate; now injection H as ->.
  - discriminate.
Qed.

(** With a client that always answers below 300, [put] is over after one
    request. *)
Lemma put_succeeds_at_once (c : Controller) ctx path obj fuel (s : Sim) :
  url_error (api c (authToken c) path) = None ->
  (forall req n, exists r n', Do req n = (inl r, n') /\ StatusCode r < 300) ->
  fst (put now ctx_Err url_error Do c ctx path obj (S fuel) s)
  = Returned None
  /\ exists d,
       wire (locals (snd (put now ctx_Err url_error Do c ctx path obj
                            (S fuel) s)))
       = wire (locals s)
         ++ [mkRequest "PUT" (api c (authToken c) path)
                       (Some (render (to_json obj))) true
                       (WithDeadline ctx d)].
Proof.
  intros Hurl Hdo.
  unfold put, json_Marshal, retry, debugf. cbn [rawDebug negb retry_loop].
  unfold debugf. cbn [rawDebug negb].
  set (s0 := declare_resp (tracef c ctx _ s)).
  assert (Hw0 : wire (locals s0) = wire (locals s))
    by (subst s0; cbn; now rewrite tracef_locals).
  set (s1 := tracef c ctx (line_starting baseTimeout) s0).
  assert (Hw1 : wire (locals s1) = wire (locals s))
    by (subst s1; now rewrite tracef_locals).
  unfold http_attempt, http_NewRequestWithContext. rewrite Hurl.
  unfold set_Close. cbn [Method URL ReqBody ReqCtx].
  match goal with
  | |- context [Do ?req ?w] => destruct (Hdo req w) as (r & n' & E & Hs)
  end.
  rewrite E. cbn [retryableErr negb fst snd].
  rewrite !tracef_locals. unfold log. cbn [locals resp wire].
  replace (StatusCode r >=? 300) with false
    by (symmetry; rewrite Z.geb_leb; apply Z.leb_gt; lia).
  cbn [fst snd]. rewrite !tracef_locals. cbn [locals wire].
  split; [reflexivity|]. rewrite Hw1. eexists. reflexivity.
Qed.

(** C8: with a client that always answers with a status below 300, [On]
    returns [nil] after handing the client exactly one request, a PUT to
    [/state] of the controller with the body [{"on":{"value":true}}], and
    [Off] does the same with the body [{"on":{"value":false}}]. *)
Theorem power_requests (c : Controller) ctx fuel (s : Sim) :
  url_error (api c (authToken c) "/state") = None ->
  (forall req n, exists r n', Do req n = (inl r, n') /\ StatusCode r < 300) ->
  (fst (On now ctx_Err url_error Do c ctx (S fuel) s) = Returned None
   /\ exists d,
        wire (locals (snd (On now ctx_Err url_error Do c ctx (S fuel) s)))
        = wire (locals s)
          ++ [mkRequest "PUT"
                ("http://" ++ ip c ++ ":16021/api/v1/" ++ authToken c
                 ++ "/state")
                (Some (spec_power_body true)) true (WithDeadline ctx d)])
  /\
  (fst (Off now ctx_Err url_error Do c ctx (S fuel) s) = Returned None
   /\ exists d,
        wire (locals (snd (Off now ctx_Err url_error Do c ctx (S fuel) s)))
        = wire (locals s)
          ++ [mkRequest "PUT"
                ("http://" ++ ip c ++ ":16021/api/v1/" ++ authToken c
                 ++ "/state")
                (Some (spec_power_body false)) true (WithDeadline ctx d)]).
Proof.
  intros Hurl Hdo. split.
  - exact (@put_succeeds_at_once c ctx "/state" (on_request true) fuel s
             Hurl Hdo).
  - exact (@put_succeeds_at_once c ctx "/state" (on_request false) fuel s
             Hurl Hdo).
Qed.

End DeviceClaims.

(* ================================================================= *)
(** ** The calls of the trace hook *)

(** C5, as the code has it: when the hook is set, [retry] calls it at the
    start of every attempt with the timeout of that attempt, and once
    more when it returns: with the time elapsed since the start of the
    last attempt when that attempt did not fail retryably, with the
    giving-up line otherwise. [put] and [get] call it once before that,
    with the address of the request. When the hook is absent nothing is
    called. *)
Theorem trace_calls_of_operations {N : Type}
    (now : N -> Z) (ctx_Err : context -> N -> option error)
    (url_error : string -> option error)
    (Do : Request -> N -> (Response + error) * N)
    (json_Unmarshal : string -> State -> option string * State)
    (c : Controller (W:=N)) (ctx : context) :
  (forall (L : Type) (f : retryableOp (W:=N) (L:=L)) fuel
          (s : Sim (W:=N) (L:=L)) r,
     fst (retry now ctx_Err c ctx f fuel s) = Returned r ->
     exists l init a,
       events (snd (retry now ctx_Err c ctx f fuel s)) = events s ++ l /\
       attempts l = init ++ [a] /\
       trace_calls l
       = if is_set (Tracef c)
         then map (opening_call ctx) (init ++ [a]) ++ [closing_call ctx a]
         else [])
  /\
  (forall path obj fuel (s : Sim (W:=N) (L:=OpState)) r,
     fst (put now ctx_Err url_error Do c ctx path obj fuel s) = Returned r ->
     exists l init a,
       events (snd (put now ctx_Err url_error Do c ctx path obj fuel s))
       = events s ++ l /\
       attempts l = init ++ [a] /\
       trace_calls l
       = if is_set (Tracef c)
         then call_of ctx (line_put c path)
              :: map (opening_call ctx) (init ++ [a])
              ++ [closing_call ctx a]
         else [])
  /\
  (forall path dst fuel (s : Sim (W:=N) (L:=OpState)) r,
     fst (fst (get now ctx_Err url_error Do json_Unmarshal c ctx path dst
                 fuel s))
     = Returned r ->
     exists l init a,
       events (snd (get now ctx_Err url_error Do json_Unmarshal c ctx path
                      dst fuel s))
       = events s ++ l /\
       attempts l = init ++ [a] /\
       trace_calls l
       = if is_set (Tracef c)
         then call_of ctx (line_get c path)
              :: map (opening_call ctx) (init ++ [a])
              ++ [closing_call ctx a]
         else []).
Proof.
  split; [|split].
  - intros L f fuel s r. apply retry_trace_calls_of_log.
  - intros path obj fuel s r Hr.
    destruct (put_log now ctx_Err url_error Do c ctx path obj fuel s)
      as (l & o & El & Hl & Ho).
    destruct (Ho r Hr) as [r' ->].
    destruct (RetryLog_trace_calls Hl eq_refl) as (init & a & Ea & Et).
    eexists _, init, a. split; [exact El|].
    rewrite attempts_app, attempts_traced_line, trace_calls_app,
      trace_calls_traced_line, Et.
    split; [exact Ea|]. now destruct (is_set (Tracef c)).
  - intros path dst fuel s r Hr.
    destruct (get_log now ctx_Err url_error Do json_Unmarshal c ctx path dst
                fuel s) as (l & o & El & Hl & Ho).
    destruct (Ho r Hr) as [r' ->].
    destruct (RetryLog_trace_calls Hl eq_refl) as (init & a & Ea & Et).
    eexists _, init, a. split; [exact El|].
    rewrite attempts_app, attempts_traced_line, trace_calls_app,
      trace_calls_traced_line, Et.
    split; [exact Ea|]. now destruct (is_set (Tracef c)).
Qed.

(* ================================================================= *)
(** ** The request of SetBrightness *)

Lemma brightness_duration_value (dur : Duration) :
  (Second <= dur ->
     (if dur >=? 0 then Z.quot dur Second else 0) = dur / Second
     /\ 1 <= dur / Second)
  /\ (dur < Second -> (if dur >=? 0 then Z.quot dur Second else 0) = 0).
Proof.
  assert (HS : Second = 1000000000) by reflexivity.
  split; intros H.
  - assert (0 <= dur) by lia.
    replace (dur >=? 0) with true by (symmetry; rewrite Z.geb_leb; lia).
    rewrite Z.quot_div_nonneg by lia. split; [reflexivity|].
    apply Z.div_le_lower_bound; lia.
  - destruct (dur >=? 0) eqn:E; [|reflexivity].
    rewrite Z.geb_leb in E. apply Z.leb_le in E.
    apply Z.quot_small. lia.
Qed.

(** C6, as the code has it: the body of [SetBrightness] holds the member
    [duration] exactly when the duration given is one second or more, and
    its value is then the number of whole seconds; a negative duration and
    a duration below one second (zero included) both leave the member out.
    1500ms is encoded as 1. *)
Theorem brightness_duration_field (v : Z) (dur : Duration) :
  (has_duration (to_json (brightness_request v dur)) = true
   <-> Second <= dur)
  /\ (Second <= dur ->
      to_json (brightness_request v dur)
      = JObject [("brightness",
                  JObject [("value", JNumber v);
                           ("duration", JNumber (dur / Second))])])
  /\ (dur < Second ->
      to_json (brightness_request v dur)
      = JObject [("brightness", JObject [("value", JNumber v)])])
  /\ json_Marshal (brightness_request 50 (1500 * Millisecond))
     = inl ("{" ++ quote "brightness" ++ ":{" ++ quote "value" ++ ":50,"
            ++ quote "duration" ++ ":1}}")%string
  /\ json_Marshal (brightness_request 50 (-1))
     = inl ("{" ++ quote "brightness" ++ ":{" ++ quote "value"
            ++ ":50}}")%string.
Proof.
  destruct (brightness_duration_value dur) as [Hlong Hshort].
  assert (Elong : Second <= dur ->
            to_json (brightness_request v dur)
            = JObject [("brightness",
                        JObject [("value", JNumber v);
                                 ("duration", JNumber (dur / Second))])]).
  { intros H. destruct (Hlong H) as [E Hpos].
    assert (Ez : (dur / Second =? 0) = false) by (apply Z.eqb_neq; lia).
    unfold brightness_request. rewrite E.
    cbn [to_json isEmptyValue andb]. now rewrite Ez. }
  assert (Eshort : dur < Second ->
            to_json (brightness_request v dur)
            = JObject [("brightness", JObject [("value", JNumber v)])]).
  { intros H. unfold brightness_request. rewrite (Hshort H). reflexivity. }
  split; [|split; [exact Elong | split; [exact Eshort |
           split; reflexivity]]].
  destruct (Z.le_gt_cases Second dur) as [H|H].
  - rewrite (Elong H). split; [intros _; exact H | reflexivity].
  - rewrite (Eshort H). split; [discriminate | lia].
Qed.

(** C6, refuted as stated: a duration of 500ms is not negative, and the
    body has no [duration]. *)
Lemma brightness_short_duration_omitted :
  0 <= 500 * Millisecond
  /\ has_duration (to_json (brightness_request 50 (500 * Millisecond)))
     = false
  /\ json_Marshal (brightness_request 50 (500 * Millisecond))
     = inl ("{" ++ quote "brightness" ++ ":{" ++ quote "value"
            ++ ":50}}")%string
  /\ ~ (forall v dur,
          has_duration (to_json (brightness_request v dur)) = true
          <-> 0 <= dur).
Proof.
  split; [discriminate|]. split; [reflexivity|]. split; [reflexivity|].
  intros H. destruct (H 50 (500 * Millisecond)) as [_ H'].
  assert (E : has_duration (to_json (brightness_request 50 (500 * Millisecond)))
              = false) by reflexivity.
  rewrite E in H'. discriminate H'. discriminate.
Qed.

(* ================================================================= *)
(** ** The trace hook and the operations of the Controller *)

Section DeviceHook.

Context {N V : Type}.
Variable now : N -> Z.
Variable ctx_Err : context -> N -> option error.
Variable url_error : string -> option error.
Variable Do : Request -> N -> (Response + error) * N.
Variable json_Unmarshal : string -> State -> option string * State.
Variable view : N -> V.

Let Controller := @Controller N.
Let Sim := @Sim N OpState.

Lemma http_attempt_respects_view (c : Controller) method path body :
  client_respects_view view Do ->
  op_respects_view view (http_attempt url_error Do c method path body).
Proof.
  intros H sub w1 w2 l Hv.
  unfold http_attempt, http_NewRequestWithContext.
  destruct (url_error _) as [e|]; [now repeat split|].
  match goal with
  | |- context [Do ?req w1] => destruct (H req w1 w2 Hv) as [E1 E2]
  end.
  destruct (Do _ w1) as [[r1|e1] w1'], (Do _ w2) as [[r2|e2] w2'];
    cbn [fst snd] in *; try discriminate;
    injection E1 as <-; now repeat split.
Qed.

Lemma Agree_declare_resp (s1 s2 : Sim) :
  Agree view s1 s2 -> Agree view (declare_resp s1) (declare_resp s2).
Proof.
  intros (Hv & Hl & He). repeat split; cbn; try assumption.
  now rewrite Hl.
Qed.

Section WithHypotheses.

Variable c : Controller.
Hypothesis Hhook : hook_frames view c.
Hypothesis Hctx : forall ctx, respects_view view (ctx_Err ctx).
Hypothesis Hnow : respects_view view now.
Hypothesis Hdo : client_respects_view view Do.

Lemma put_hook_irrelevant ctx path obj fuel (s1 s2 : Sim) :
  Agree view s1 s2 ->
  fst (put now ctx_Err url_error Do c ctx path obj fuel s1)
  = fst (put now ctx_Err url_error Do (without_hook c) ctx path obj fuel s2)
  /\ Agree view
       (snd (put now ctx_Err url_error Do c ctx path obj fuel s1))
       (snd (put now ctx_Err url_error Do (without_hook c) ctx path obj
               fuel s2)).
Proof.
  intros Ha. unfold put, json_Marshal, retry, debugf. cbn [rawDebug negb].
  rewrite tracef_without_hook.
  match goal with
  | |- context [tracef c ctx ?line s1] =>
      pose proof (Agree_declare_resp
                    (Agree_tracef_l ctx line Hhook Ha)) as Ha0
  end.
  match type of Ha0 with
  | Agree _ ?a ?b => set (s1a := a) in *; set (s2a := b) in *
  end.
  destruct (retry_loop_hook_irrelevant ctx_Err ctx Hhook
              (http_attempt_respects_view c "PUT" path
                 (Some (render (to_json obj))) Hdo)
              Hctx Hnow fuel baseTimeout Ha0) as [Ho Hs].
  change (http_attempt url_error Do (without_hook c))
    with (http_attempt url_error Do c).
  destruct (retry_loop now ctx_Err c _ _ _ _ s1a) as [o1 t1].
  destruct (retry_loop now ctx_Err (without_hook c) _ _ _ _ s2a) as [o2 t2].
  cbn [fst snd] in Ho, Hs. subst o2.
  pose proof Hs as (_ & Hl & _).
  destruct o1 as [[err|]| |]; cbn [fst snd]; try (now split).
  rewrite Hl. destruct (resp (locals t2)) as [r|]; [|now split].
  destruct (StatusCode r >=? 300); now split.
Qed.

Lemma get_hook_irrelevant ctx path dst fuel (s1 s2 : Sim) :
  Agree view s1 s2 ->
  fst (get now ctx_Err url_error Do json_Unmarshal c ctx path dst fuel s1)
  = fst (get now ctx_Err url_error Do json_Unmarshal (without_hook c) ctx
           path dst fuel s2)
  /\ Agree view
       (snd (get now ctx_Err url_error Do json_Unmarshal c ctx path dst
               fuel s1))
       (snd (get now ctx_Err url_error Do json_Unmarshal (without_hook c)
               ctx path dst fuel s2)).
Proof.
  intros Ha. unfold get, retry, debugf. cbn [rawDebug negb].
  rewrite tracef_without_hook.
  match goal with
  | |- context [tracef c ctx ?line s1] =>
      pose proof (Agree_declare_resp
                    (Agree_tracef_l ctx line Hhook Ha)) as Ha0
  end.
  match type of Ha0 with
  | Agree _ ?a ?b => set (s1a := a) in *; set (s2a := b) in *
  end.
  destruct (retry_loop_hook_irrelevant ctx_Err ctx Hhook
              (http_attempt_respects_view c "GET" path None Hdo)
              Hctx Hnow fuel baseTimeout Ha0) as [Ho Hs].
  change (http_attempt url_error Do (without_hook c))
    with (http_attempt url_error Do c).
  destruct (retry_loop now ctx_Err c _ _ _ _ s1a) as [o1 t1].
  destruct (retry_loop now ctx_Err (without_hook c) _ _ _ _ s2a) as [o2 t2].
  cbn [fst snd] in Ho, Hs. subst o2.
  pose proof Hs as (Hv & Hl & He).
  destruct o1 as [[err|]| |]; cbn [fst snd]; try (now split).
  rewrite Hl. destruct (resp (locals t2)) as [r|]; [|now split].
  destruct (StatusCode r >=? 300); [now split|].
  destruct (BodyErr r); [now split|].
  destruct (json_Unmarshal (Body r) dst) as [msg d'].
  cbn [fst snd]. split; [reflexivity|].
  repeat split; cbn [note_decoded world locals events]; try assumption.
  now rewrite Hl.
Qed.

End WithHypotheses.

End DeviceHook.


(* ================================================================= *)
(** ** The Controller on scripted worlds *)

(** A device that answers 500 with a body that would decode: [get] returns
    the status error and decodes nothing. *)
Lemma get_decodes_only_below_300_witness :
  fst (fst Mock.get_from_broken_device)
  = Returned (Some (errorString "HTTP response 500 Internal Server Error"))
  /\ decoded (locals (snd Mock.get_from_broken_device)) = []
  /\ snd (fst Mock.get_from_broken_device) = zero_State.
Proof.
  refine (proj1 (get_decodes_only_below_300 Mock.now Mock.ctx_Err
                   Mock.url_error Mock.Do Mock.json_Unmarshal Mock.silent
                   (Caller 0) "/" zero_State 3
                   (Mock.device [Mock.answers (20 * Millisecond)
                                   Mock.internal_error]))
            Mock.internal_error _ _).
  - vm_compute. reflexivity.
  - vm_compute. discriminate.
Defined.

(** [Mock.Do_ok] is an always-succeeding client. *)
Lemma Do_ok_always_succeeds :
  forall req n, exists r n',
    Mock.Do_ok req n = (inl r, n') /\ StatusCode r < 300.
Proof.
  intros req n. exists Mock.no_content, n. split; reflexivity.
Qed.

(** [On] and [Off] against the always-succeeding client. *)
Lemma power_requests_witness :
  (fst (On Mock.now Mock.ctx_Err Mock.url_error Mock.Do_ok Mock.silent
           (Caller 0) 1 (Mock.device []))
   = Returned None
   /\ exists d,
        wire (locals (snd (On Mock.now Mock.ctx_Err Mock.url_error
                             Mock.Do_ok Mock.silent (Caller 0) 1
                             (Mock.device []))))
        = [] ++ [mkRequest "PUT" "http://192.0.2.7:16021/api/v1/token/state"
                           (Some (spec_power_body true)) true
                           (WithDeadline (Caller 0) d)])
  /\
  (fst (Off Mock.now Mock.ctx_Err Mock.url_error Mock.Do_ok Mock.silent
            (Caller 0) 1 (Mock.device []))
   = Returned None
   /\ exists d,
        wire (locals (snd (Off Mock.now Mock.ctx_Err Mock.url_error
                              Mock.Do_ok Mock.silent (Caller 0) 1
                              (Mock.device []))))
        = [] ++ [mkRequest "PUT" "http://192.0.2.7:16021/api/v1/token/state"
                           (Some (spec_power_body false)) true
                           (WithDeadline (Caller 0) d)]).
Proof.
  exact (power_requests Mock.now Mock.ctx_Err Mock.url_error Mock.Do_ok
           Mock.silent (Caller 0) 0 (Mock.device [])
           eq_refl Do_ok_always_succeeds).
Defined.

(** On, then Off: two requests on the wire, in this order. *)
Example power_on_then_off :
  let on := On Mock.now Mock.ctx_Err Mock.url_error Mock.Do_ok Mock.silent
               (Caller 0) 1 (Mock.device []) in
  let off := Off Mock.now Mock.ctx_Err Mock.url_error Mock.Do_ok Mock.silent
                (Caller 0) 1 (snd on) in
  fst on = Returned None /\ fst off = Returned None
  /\ map (fun r => (Method r, URL r, ReqBody r)) (wire (locals (snd off)))
     = [("PUT", "http://192.0.2.7:16021/api/v1/token/state",
         Some (spec_power_body true));
        ("PUT", "http://192.0.2.7:16021/api/v1/token/state",
         Some (spec_power_body false))].
Proof. vm_compute. repeat split; reflexivity. Qed.

(** The hook of the scripted world writes to the sink only, and the clock,
    the context, the client and the operation do not read the sink. *)
Lemma Mock_hook_frames : hook_frames Mock.view Mock.traced.
Proof. intros hook E. injection E as <-. reflexivity. Qed.

Lemma Mock_ctx_Err_respects ctx : respects_view Mock.view (Mock.ctx_Err ctx).
Proof.
  intros w1 w2 H. apply Mock_view_inv in H as (Hc & _ & He & Hw).
  unfold Mock.ctx_Err. now rewrite Hc, He, Hw.
Qed.

Lemma Mock_now_respects : respects_view Mock.view Mock.now.
Proof. intros w1 w2 H. now apply Mock_view_inv in H as (Hc & _). Qed.

Lemma Mock_exchange_respects ctx (w1 w2 : Mock.World) :
  Mock.view w1 = Mock.view w2 ->
  fst (Mock.exchange ctx w1) = fst (Mock.exchange ctx w2)
  /\ Mock.view (snd (Mock.exchange ctx w1))
     = Mock.view (snd (Mock.exchange ctx w2)).
Proof.
  intros H. apply Mock_view_inv in H as (Hc & Hs & He & Hw).
  unfold Mock.exchange. rewrite Hc, Hs, He, Hw.
  destruct (Mock.script w2) as [|[took res] rest]; now split.
Qed.

Lemma Mock_Do_respects : client_respects_view Mock.view Mock.Do.
Proof. intros req w1 w2 H. now apply Mock_exchange_respects. Qed.

Lemma Mock_op_respects : op_respects_view Mock.view Mock.op.
Proof.
  intros ctx w1 w2 l H.
  destruct (Mock_exchange_respects ctx H) as [E1 E2].
  unfold Mock.op.
  destruct (Mock.exchange ctx w1) as [r1 w1'],
           (Mock.exchange ctx w2) as [r2 w2'].
  cbn [fst snd] in *. subst r2. now repeat split.
Qed.


(** On the slow device the hook is called four times and the request went out
    twice; without the hook the sink stays empty. *)
Example hook_is_called_on_slow_device :
  Mock.sink (world (snd (On Mock.now Mock.ctx_Err Mock.url_error Mock.Do
                           Mock.traced (Caller 0) 5 Mock.slow_device)))
  = ["Nanoleaf PUT to %s";
     "Nanoleaf operation starting with timeout %v";
     "Nanoleaf operation starting with timeout %v";
     "Nanoleaf operation finished after %v"]
  /\ Mock.sink (world (snd (On Mock.now Mock.ctx_Err Mock.url_error Mock.Do
                              Mock.silent (Caller 0) 5 Mock.slow_device)))
     = []
  /\ fst (On Mock.now Mock.ctx_Err Mock.url_error Mock.Do Mock.traced
             (Caller 0) 5 Mock.slow_device)
     = Returned None
  /\ List.length
       (wire (locals (snd (On Mock.now Mock.ctx_Err Mock.url_error Mock.Do
                             Mock.traced (Caller 0) 5 Mock.slow_device))))
     = 2%nat.
Proof. vm_compute. repeat split; reflexivity. Qed.

(** The calls of the hook in a call of [retry] that makes two attempts. *)
Lemma trace_calls_of_operations_witness :
  exists l init a,
    events (snd (Mock.run Mock.traced 5 Mock.timeout_then_success))
    = events Mock.timeout_then_success ++ l /\
    attempts l = init ++ [a] /\
    trace_calls l
    = map (opening_call (Caller 0)) (init ++ [a])
      ++ [closing_call (Caller 0) a].
Proof.
  refine (proj1 (trace_calls_of_operations Mock.now Mock.ctx_Err
                   Mock.url_error Mock.Do Mock.json_Unmarshal
                   Mock.traced (Caller 0))
            nat Mock.op 5%nat Mock.timeout_then_success None _).
  vm_compute. reflexivity.
Defined.

(* ================================================================= *)
(** ** More on the retry loop *)

Section MoreLogFacts.

Variable traced : bool.
Variable ctx : context.

Lemma ctx_checks_iteration line a rest :
  ctx_checks (traced_line traced ctx line ++ EvAttempt a :: rest)
  = ctx_checks rest.
Proof. now rewrite ctx_checks_app, ctx_checks_traced_line. Qed.

(** Where the result of a call comes from: the last attempt, or the check
    of the umbrella context after it. *)
Lemma RetryLog_provenance k l o :
  RetryLog traced ctx k l o ->
  forall r, o = Returned r ->
  exists init a,
    attempts l = init ++ [a]
    /\ Forall (fun b => retryableErr (a_err b) = true) init
    /\ ((retryableErr (a_err a) = false /\ r = a_err a
         /\ ctx_checks l = repeat None (List.length init))
        \/ (retryableErr (a_err a) = true
            /\ exists e, r = Some e
                 /\ ctx_checks l = repeat None (List.length init) ++ [Some e])).
Proof.
  induction 1 as [k | k a0 Ha Hr | k a0 e0 Ha Hr | k a0 l o Ha Hr Hl IH];
    intros r Eo; [discriminate | ..].
  - injection Eo as <-. exists [], a0.
    rewrite attempts_iteration, ctx_checks_iteration,
      attempts_traced_line, ctx_checks_traced_line.
    split; [reflexivity|]. split; [constructor|]. left. now repeat split.
  - injection Eo as <-. exists [], a0.
    rewrite attempts_iteration, ctx_checks_iteration.
    cbn [attempts ctx_checks flat_map app].
    rewrite attempts_traced_line, ctx_checks_traced_line.
    split; [reflexivity|]. split; [constructor|]. right.
    split; [assumption|]. now exists e0.
  - destruct (IH r Eo) as (init & a & Ea & Hi & Hres).
    exists (a0 :: init), a.
    rewrite attempts_iteration, ctx_checks_iteration.
    cbn [attempts ctx_checks flat_map app List.length repeat].
    fold (attempts l) (ctx_checks l). rewrite Ea.
    split; [reflexivity|]. split; [now constructor|].
    destruct Hres as [(H1 & H2 & H3)|(H1 & e & H2 & H3)].
    + left. rewrite H3. now repeat split.
    + right. split; [assumption|]. exists e. rewrite H3. now split.
Qed.

(** Every trace line of the loop carries the umbrella context, one of the
    formats of the package, and durations only. *)
Lemma RetryLog_trace_args k l o :
  RetryLog traced ctx k l o ->
  Forall (fun call =>
            tc_ctx call = ctx
            /\ In (tc_format call) trace_formats
            /\ Forall (fun arg => exists d, arg = ArgDuration d)
                      (tc_args call))
         (trace_calls l).
Proof.
  induction 1 as [k | k a0 Ha Hr | k a0 e0 Ha Hr | k a0 l o Ha Hr Hl IH];
    [now cbn | rewrite trace_calls_app, trace_calls_traced_line ..];
    cbn [trace_calls flat_map app]; rewrite ?trace_calls_traced_line;
    try fold (trace_calls l);
    destruct traced; cbn [app call_of line_starting line_finished
                          line_giving_up fst snd];
    repeat (constructor; cbn [tc_ctx tc_args tc_format]);
    eauto; unfold trace_formats; cbn [In]; tauto.
Qed.

End MoreLogFacts.

Section MoreRetrier.

Context {W L : Type}.
Variable now : W -> Z.
Variable ctx_Err : context -> W -> option error.

Let Sim := @Sim W L.
Let retryableOp := @retryableOp W L.
Let Controller := @Controller W.

(** X1: whatever [retry] returns is either what the last call of the
    operation returned, and then that is [nil] or an error that is not
    retryable, and every check of the umbrella context before was [nil]; or
    it is the error that the umbrella context reported after the last call
    had failed retryably, the first that it reported. All earlier calls
    failed retryably. So [retry] returns [nil] only when the last call of
    the operation returned [nil], and never returns a retryable error of
    the operation. *)
Theorem retry_result_provenance (c : Controller) ctx (f : retryableOp) fuel
    (s : Sim) r :
  fst (retry now ctx_Err c ctx f fuel s) = Returned r ->
  exists l init a,
    events (snd (retry now ctx_Err c ctx f fuel s)) = events s ++ l
    /\ attempts l = init ++ [a]
    /\ Forall (fun b => retryableErr (a_err b) = true) init
    /\ ((retryableErr (a_err a) = false /\ r = a_err a
         /\ ctx_checks l = repeat None (List.length init))
        \/ (retryableErr (a_err a) = true
            /\ exists e, r = Some e
                 /\ ctx_checks l = repeat None (List.length init) ++ [Some e]))
    /\ (r = None -> a_err a = None).
Proof.
  intros Hr.
  destruct (retry_log now ctx_Err c ctx f fuel s) as (l & El & Hl).
  destruct (RetryLog_provenance Hl Hr) as (init & a & Ea & Hi & Hres).
  exists l, init, a. repeat (split; [assumption|]).
  intros ->. destruct Hres as [(_ & H & _)|(_ & e & H & _)];
    [now symmetry | discriminate].
Qed.

(** While the operation fails retryably and the umbrella context lives,
    the loop goes on. *)
Lemma retry_loop_keeps_trying (c : Controller) ctx (f : retryableOp) :
  (forall sub wl, retryableErr (fst (f sub wl)) = true) ->
  (forall w, ctx_Err ctx w = None) ->
  forall fuel timeout (s : Sim),
    fst (retry_loop now ctx_Err c ctx f fuel timeout s) = OutOfFuel.
Proof.
  intros Hf Hc. induction fuel as [|fuel IH]; intros timeout s; [reflexivity|].
  rewrite retry_loop_S. cbv zeta.
  match goal with
  | |- context [f ?sub ?wl] =>
      pose proof (Hf sub wl) as Hr; destruct (f sub wl) as [err [w2 l2]]
  end.
  cbn [fst] in Hr. rewrite Hr, Hc. apply IH.
Qed.

(** X2: [retry] has no limit of attempts of its own. With an operation
    that fails retryably at every call and an umbrella context that never
    reports an error it does not return: whatever the number of iterations
    it is given, it has made that many calls of the operation, with the
    timeouts of the backoff sequence, and goes on. *)
Theorem retry_has_no_attempt_limit (c : Controller) ctx (f : retryableOp) :
  (forall sub wl, retryableErr (fst (f sub wl)) = true) ->
  (forall w, ctx_Err ctx w = None) ->
  forall fuel (s : Sim),
    fst (retry now ctx_Err c ctx f fuel s) = OutOfFuel
    /\ exists l,
         events (snd (retry now ctx_Err c ctx f fuel s)) = events s ++ l
         /\ List.length (attempts l) = fuel
         /\ map a_timeout (attempts l) = map timeout_at (seq 0 fuel).
Proof.
  intros Hf Hc fuel s.
  pose proof (@retry_loop_keeps_trying c ctx f Hf Hc fuel baseTimeout s) as Ho.
  split; [exact Ho|].
  destruct (retry_loop_out_of_fuel now ctx_Err c ctx f fuel baseTimeout s Ho)
    as (l & El & Hn & _).
  destruct (retry_log now ctx_Err c ctx f fuel s) as (l' & El' & Hl').
  unfold retry in El'. rewrite El in El'. apply app_inv_head in El'. subst l'.
  exists l. split; [exact El|]. split; [exact Hn|].
  rewrite (RetryLog_timeouts Hl'). now rewrite Hn.
Qed.

Lemma tracef_clock (c : Controller) ctx (f : retryableOp) line (s : Sim) :
  clock_goes_forward now c f ->
  now (world s) <= now (world (tracef c ctx line s))
  /\ (Tracef c = None -> world (tracef c ctx line s) = world s).
Proof.
  intros [Hh _]. unfold tracef. destruct (Tracef c) as [hook|] eqn:E.
  - cbn [world]. split; [now apply Hh | discriminate].
  - split; [lia | reflexivity].
Qed.

Lemma retry_loop_timing (c : Controller) ctx (f : retryableOp) :
  clock_goes_forward now c f ->
  forall fuel timeout (s : Sim),
  exists l,
    events (snd (retry_loop now ctx_Err c ctx f fuel timeout s))
    = events s ++ l
    /\ Forall (fun a =>
                 a_start a <= a_end a
                 /\ exists d, a_sub a = WithDeadline ctx d
                      /\ d <= a_start a + a_timeout a
                      /\ (Tracef c = None -> d = a_start a + a_timeout a))
              (attempts l).
Proof.
  intros Hclock. induction fuel as [|fuel IH]; intros timeout s.
  - exists []. cbn. rewrite app_nil_r. now split.
  - rewrite retry_loop_S. cbv zeta.
    destruct (@tracef_clock c ctx f (line_starting timeout) s Hclock)
      as [Hle Heq].
    set (s1 := tracef c ctx (line_starting timeout) s) in *.
    pose proof (proj2 Hclock (WithTimeout ctx timeout (now (world s)))
                  (world s1) (locals s1)) as Hop.
    destruct (f _ (world s1, locals s1)) as [err [w2 l2]].
    cbn [fst snd] in Hop.
    set (a := mkAttempt timeout _ _ err _).
    assert (Ha : a_start a <= a_end a
                 /\ exists d, a_sub a = WithDeadline ctx d
                      /\ d <= a_start a + a_timeout a
                      /\ (Tracef c = None -> d = a_start a + a_timeout a)).
    { subst a. cbn [a_start a_end a_sub a_timeout]. split; [exact Hop|].
      eexists. split; [reflexivity|]. split; [lia|].
      intros Hn. now rewrite (Heq Hn). }
    assert (E1 : events s1
                 = events s ++ traced_line (is_set (Tracef c)) ctx
                                 (line_starting timeout))
      by (subst s1; apply tracef_events).
    destruct (retryableErr err).
    + destruct (ctx_Err ctx w2) as [e|].
      * eexists. cbn [snd]. rewrite tracef_events. unfold log.
        cbn [events]. rewrite E1, <- !app_assoc. cbn [app].
        split; [reflexivity|].
        rewrite attempts_iteration. cbn [attempts flat_map app].
        rewrite attempts_traced_line. now constructor.
      * match goal with
        | |- context [retry_loop _ _ _ _ _ _ ?t ?s'] =>
            destruct (IH t s') as (l & El & Hl)
        end.
        eexists. rewrite El. unfold log. cbn [events].
        rewrite E1, <- !app_assoc. cbn [app].
        split; [reflexivity|].
        rewrite attempts_iteration. cbn [attempts flat_map app].
        fold (attempts l). now constructor.
    + eexists. cbn [snd]. rewrite tracef_events. unfold log.
      cbn [events]. rewrite E1, <- !app_assoc. cbn [app].
      split; [reflexivity|].
      rewrite attempts_iteration, attempts_traced_line. now constructor.
Qed.


End MoreRetrier.

(* ================================================================= *)
(** ** More on [get] and [put] *)

Lemma retryableErr_wrapped (msg : string) (e : error) :
  retryableErr (Some (wrapError msg e)) = errors_Is e DeadlineExceeded.
Proof.
  cbn [retryableErr errors_Is net_Error_Timeout]. unfold error_eqb.
  destruct (error_eq_dec (wrapError msg e) DeadlineExceeded);
    [discriminate|].
  now destruct (errors_Is e DeadlineExceeded).
Qed.

Section MoreDevice.

Context {N : Type}.
Variable now : N -> Z.
Variable ctx_Err : context -> N -> option error.
Variable url_error : string -> option error.
Variable Do : Request -> N -> (Response + error) * N.
Variable json_Unmarshal : string -> State -> option string * State.

Let Controller := @Controller N.
Let Sim := @Sim N OpState.

(** What one attempt hands to the client. *)
Lemma http_attempt_wire (c : Controller) ctx method path body timeout t w l :
  let out := http_attempt url_error Do c method path body
               (WithTimeout ctx timeout t) (w, l) in
  exists sent,
    wire (snd (snd out)) = wire l ++ sent
    /\ Forall (sent_by c method path body ctx) sent
    /\ (url_error (api c (authToken c) path) = None ->
        map ReqCtx sent = [WithTimeout ctx timeout t])
    /\ (url_error (api c (authToken c) path) <> None -> sent = []).
Proof.
  unfold http_attempt, http_NewRequestWithContext.
  destruct (url_error _) as [e|] eqn:Eu.
  - exists []. cbn. rewrite app_nil_r.
    split; [reflexivity|]. split; [constructor|]. now split.
  - unfold set_Close. cbn [Method URL ReqBody ReqCtx].
    assert (Hs : sent_by c method path body ctx
                   (mkRequest method (api c (authToken c) path) body true
                      (WithTimeout ctx timeout t))).
    { repeat split. eexists. reflexivity. }
    exists [mkRequest method (api c (authToken c) path) body true
              (WithTimeout ctx timeout t)].
    destruct (Do _ w) as [[r|e] w']; cbn [fst snd wire];
      (split; [reflexivity|]);
      (split; [constructor; [exact Hs | constructor]|]);
      (split; [reflexivity | congruence]).
Qed.

(** The requests of a call of [retry] by [get] or [put]: one for each
    attempt, under the sub-context of that attempt. *)
Lemma retry_loop_http_wire (c : Controller) ctx method path body fuel :
  forall timeout (s : Sim),
  exists l new,
    events (snd (retry_loop now ctx_Err c ctx
                   (http_attempt url_error Do c method path body)
                   fuel timeout s))
    = events s ++ l
    /\ wire (locals (snd (retry_loop now ctx_Err c ctx
                            (http_attempt url_error Do c method path body)
                            fuel timeout s)))
       = wire (locals s) ++ new
    /\ Forall (sent_by c method path body ctx) new
    /\ (url_error (api c (authToken c) path) = None ->
        map ReqCtx new = map a_sub (attempts l))
    /\ (url_error (api c (authToken c) path) <> None -> new = []).
Proof.
  induction fuel as [|fuel IH]; intros timeout s.
  - exists [], []. cbn. rewrite !app_nil_r.
    split; [reflexivity|]. split; [reflexivity|]. split; [constructor|].
    now split.
  - rewrite retry_loop_S. cbv zeta.
    set (s1 := tracef c ctx (line_starting timeout) s).
    assert (E1 : events s1
                 = events s ++ traced_line (is_set (Tracef c)) ctx
                                 (line_starting timeout))
      by (subst s1; apply tracef_events).
    assert (Hw1 : wire (locals s1) = wire (locals s))
      by (subst s1; now rewrite tracef_locals).
    destruct (http_attempt_wire c ctx method path body timeout
                (now (world s)) (world s1) (locals s1))
      as (sent & Ew & Hsent & Hok & Hbad).
    destruct (http_attempt _ _ _ _ _ _ _ (world s1, locals s1))
      as [err [w2 l2]].
    cbn [fst snd] in Ew. rewrite Hw1 in Ew.
    set (a := mkAttempt timeout _ _ err _).
    destruct (retryableErr err).
    + destruct (ctx_Err ctx w2) as [e|].
      * exists (traced_line (is_set (Tracef c)) ctx (line_starting timeout)
                ++ EvAttempt a :: EvCtxErr (Some e)
                :: traced_line (is_set (Tracef c)) ctx line_giving_up), sent.
        cbn [snd]. rewrite tracef_events, tracef_locals. unfold log.
        cbn [events locals]. rewrite E1, <- !app_assoc. cbn [app].
        split; [reflexivity|]. split; [exact Ew|]. split; [exact Hsent|].
        split; [|exact Hbad]. intros Hu.
        rewrite attempts_iteration. cbn [attempts flat_map app].
        rewrite attempts_traced_line. exact (Hok Hu).
      * match goal with
        | |- context [retry_loop _ _ _ _ _ _ ?t ?s'] =>
            destruct (IH t s') as (l & new & El & Enew & Hnew & Hok' & Hbad')
        end.
        exists (traced_line (is_set (Tracef c)) ctx (line_starting timeout)
                ++ EvAttempt a :: EvCtxErr None :: l), (sent ++ new).
        rewrite El, Enew. unfold log. cbn [events locals].
        rewrite E1, Ew, <- !app_assoc. cbn [app].
        split; [reflexivity|]. split; [reflexivity|].
        split; [now apply Forall_app|].
        split.
        -- intros Hu. rewrite attempts_iteration.
           cbn [attempts flat_map app]. fold (attempts l).
           rewrite map_app, (Hok Hu), (Hok' Hu). reflexivity.
        -- intros Hu. now rewrite (Hbad Hu), (Hbad' Hu).
    + exists (traced_line (is_set (Tracef c)) ctx (line_starting timeout)
              ++ EvAttempt a
              :: traced_line (is_set (Tracef c)) ctx
                   (line_finished (now w2 - now (world s1)))), sent.
      cbn [snd]. rewrite tracef_events, tracef_locals. unfold log.
      cbn [events locals]. rewrite E1, <- !app_assoc. cbn [app].
      split; [reflexivity|]. split; [exact Ew|]. split; [exact Hsent|].
      split; [|exact Hbad]. intros Hu.
      rewrite attempts_iteration, attempts_traced_line. exact (Hok Hu).
Qed.

(** What [put] and [get] leave behind is what their call of [retry]
    leaves, but for the body that [get] decodes. *)
Lemma put_snd (c : Controller) ctx path obj fuel (s : Sim) :
  snd (put now ctx_Err url_error Do c ctx path obj fuel s)
  = snd (retry now ctx_Err c ctx
           (http_attempt url_error Do c "PUT" path
              (Some (render (to_json obj))))
           fuel (declare_resp (tracef c ctx (line_put c path) s))).
Proof.
  unfold put, json_Marshal, debugf. cbn [rawDebug negb].
  destruct (retry _ _ _ _ _ _ _) as [o s1].
  destruct o as [[err|]| |]; try reflexivity.
  destruct (resp (locals s1)) as [r|]; [|reflexivity].
  now destruct (StatusCode r >=? 300).
Qed.

Lemma get_snd (c : Controller) ctx path dst fuel (s : Sim) :
  let s' := snd (get now ctx_Err url_error Do json_Unmarshal c ctx path dst
                   fuel s) in
  let s1 := snd (retry now ctx_Err c ctx
                   (http_attempt url_error Do c "GET" path None)
                   fuel (declare_resp (tracef c ctx (line_get c path) s))) in
  events s' = events s1 /\ wire (locals s') = wire (locals s1)
  /\ world s' = world s1.
Proof.
  unfold get, debugf. cbn [rawDebug negb].
  destruct (retry _ _ _ _ _ _ _) as [o s1].
  destruct o as [[err|]| |]; try now repeat split.
  destruct (resp (locals s1)) as [r|]; [|now repeat split].
  destruct (StatusCode r >=? 300); [now repeat split|].
  destruct (BodyErr r); [now repeat split|].
  destruct (json_Unmarshal (Body r) dst). now repeat split.
Qed.

(** X4: every request that [put] and [get] hand to the HTTP client has
    the method of the operation, the address of the path under the
    controller with the authentication token, the same body at every
    attempt ([put]: the encoded object; [get]: none), [Close] set, and a
    context derived from the caller's by a deadline. When the address
    parses there is one request for each attempt of [retry], under the
    sub-context of that attempt, in order; when it does not, no request is
    made at all. *)
Theorem requests_of_put_and_get (c : Controller) ctx path obj dst fuel
    (s : Sim) :
  (exists l new,
     events (snd (put now ctx_Err url_error Do c ctx path obj fuel s))
     = events s ++ l
     /\ wire (locals (snd (put now ctx_Err url_error Do c ctx path obj
                             fuel s)))
        = wire (locals s) ++ new
     /\ Forall (sent_by c "PUT" path (Some (render (to_json obj))) ctx) new
     /\ (url_error (api c (authToken c) path) = None ->
         map ReqCtx new = map a_sub (attempts l))
     /\ (url_error (api c (authToken c) path) <> None -> new = []))
  /\
  (exists l new,
     events (snd (get now ctx_Err url_error Do json_Unmarshal c ctx path dst
                    fuel s))
     = events s ++ l
     /\ wire (locals (snd (get now ctx_Err url_error Do json_Unmarshal c ctx
                             path dst fuel s)))
        = wire (locals s) ++ new
     /\ Forall (sent_by c "GET" path None ctx) new
     /\ (url_error (api c (authToken c) path) = None ->
         map ReqCtx new = map a_sub (attempts l))
     /\ (url_error (api c (authToken c) path) <> None -> new = [])).
Proof.
  split.
  - rewrite put_snd. unfold retry.
    destruct (retry_loop_http_wire c ctx "PUT" path
                (Some (render (to_json obj))) fuel baseTimeout
                (declare_resp (tracef c ctx (line_put c path) s)))
      as (l & new & El & Ew & Hnew & Hok & Hbad).
    exists (traced_line (is_set (Tracef c)) ctx (line_put c path) ++ l), new.
    rewrite El, Ew. cbn [declare_resp events locals wire].
    rewrite tracef_events, tracef_locals, <- app_assoc.
    repeat (split; [first [reflexivity | assumption]|]).
    split; [|exact Hbad].
    intros Hu. now rewrite attempts_app, attempts_traced_line, (Hok Hu).
  - destruct (get_snd c ctx path dst fuel s) as (-> & -> & _).
    unfold retry.
    destruct (retry_loop_http_wire c ctx "GET" path None fuel baseTimeout
                (declare_resp (tracef c ctx (line_get c path) s)))
      as (l & new & El & Ew & Hnew & Hok & Hbad).
    exists (traced_line (is_set (Tracef c)) ctx (line_get c path) ++ l), new.
    rewrite El, Ew. cbn [declare_resp events locals wire].
    rewrite tracef_events, tracef_locals, <- app_assoc.
    repeat (split; [first [reflexivity | assumption]|]).
    split; [|exact Hbad].
    intros Hu. now rewrite attempts_app, attempts_traced_line, (Hok Hu).
Qed.

(** With a client that ends every exchange in the same way, and not by
    an error that is retryable once wrapped, [put] and [get] are over after
    one request. *)
Lemma put_one_exchange (c : Controller) ctx path obj fuel (s : Sim) res :
  url_error (api c (authToken c) path) = None ->
  (forall req n, exists n', Do req n = (res, n')) ->
  (forall e, res = inr e -> errors_Is e DeadlineExceeded = false) ->
  fst (put now ctx_Err url_error Do c ctx path obj (S fuel) s)
  = Returned
      match res with
      | inr e => Some (wrapError "making HTTP request" e)
      | inl r =>
          if StatusCode r >=? 300
          then Some (errorString ("HTTP response " ++ Status r))
          else None
      end
  /\ exists d,
       wire (locals (snd (put now ctx_Err url_error Do c ctx path obj
                            (S fuel) s)))
       = wire (locals s)
         ++ [mkRequest "PUT" (api c (authToken c) path)
                       (Some (render (to_json obj))) true
                       (WithDeadline ctx d)].
Proof.
  intros Hurl Hdo Herr.
  unfold put, json_Marshal, retry, debugf. cbn [rawDebug negb retry_loop].
  unfold debugf. cbn [rawDebug negb].
  set (s0 := declare_resp (tracef c ctx _ s)).
  set (s1 := tracef c ctx (line_starting baseTimeout) s0).
  assert (Hw1 : wire (locals s1) = wire (locals s))
    by (subst s1 s0; rewrite tracef_locals; cbn; now rewrite tracef_locals).
  unfold http_attempt, http_NewRequestWithContext. rewrite Hurl.
  unfold set_Close. cbn [Method URL ReqBody ReqCtx].
  match goal with
  | |- context [Do ?req ?w] => destruct (Hdo req w) as (n' & E)
  end.
  rewrite E. destruct res as [r|e].
  - cbn [retryableErr negb fst snd].
    rewrite !tracef_locals. unfold log. cbn [locals resp wire].
    destruct (StatusCode r >=? 300); cbn [fst snd];
      rewrite !tracef_locals; cbn [locals wire];
      (split; [reflexivity|]); rewrite Hw1; eexists; reflexivity.
  - rewrite retryableErr_wrapped, (Herr e eq_refl). cbn [negb fst snd].
    rewrite !tracef_locals. unfold log. cbn [locals wire].
    split; [reflexivity|]. rewrite Hw1. eexists. reflexivity.
Qed.

Lemma get_one_exchange (c : Controller) ctx path dst fuel (s : Sim) res :
  url_error (api c (authToken c) path) = None ->
  (forall req n, exists n', Do req n = (res, n')) ->
  (forall e, res = inr e -> errors_Is e DeadlineExceeded = false) ->
  let out := get now ctx_Err url_error Do json_Unmarshal c ctx path dst
               (S fuel) s in
  fst out
  = match res with
    | inr e => (Returned (Some (wrapError "making HTTP request" e)), dst)
    | inl r =>
        if StatusCode r >=? 300
        then (Returned (Some (errorString ("HTTP response " ++ Status r))),
              dst)
        else match BodyErr r with
             | Some e =>
                 (Returned (Some (wrapError "reading HTTP response body" e)),
                  dst)
             | None =>
                 (Returned (option_map jsonError
                              (fst (json_Unmarshal (Body r) dst))),
                  snd (json_Unmarshal (Body r) dst))
             end
    end
  /\ decoded (locals (snd out))
     = decoded (locals s)
       ++ match res with
          | inl r =>
              if StatusCode r >=? 300 then []
              else match BodyErr r with Some _ => [] | None => [Body r] end
          | inr _ => []
          end
  /\ exists d,
       wire (locals (snd out))
       = wire (locals s)
         ++ [mkRequest "GET" (api c (authToken c) path) None true
                       (WithDeadline ctx d)].
Proof.
  intros Hurl Hdo Herr out. subst out.
  unfold get, retry, debugf. cbn [rawDebug negb retry_loop].
  unfold debugf. cbn [rawDebug negb].
  set (s0 := declare_resp (tracef c ctx _ s)).
  set (s1 := tracef c ctx (line_starting baseTimeout) s0).
  assert (Hw1 : wire (locals s1) = wire (locals s))
    by (subst s1 s0; rewrite tracef_locals; cbn; now rewrite tracef_locals).
  assert (Hd1 : decoded (locals s1) = decoded (locals s))
    by (subst s1 s0; rewrite tracef_locals; cbn; now rewrite tracef_locals).
  unfold http_attempt, http_NewRequestWithContext. rewrite Hurl.
  unfold set_Close. cbn [Method URL ReqBody ReqCtx].
  match goal with
  | |- context [Do ?req ?w] => destruct (Hdo req w) as (n' & E)
  end.
  rewrite E. destruct res as [r|e].
  - cbn [retryableErr negb fst snd].
    rewrite !tracef_locals. unfold log. cbn [locals resp wire].
    destruct (StatusCode r >=? 300); cbn [fst snd].
    + rewrite !tracef_locals. cbn [locals wire decoded].
      rewrite Hw1, Hd1, app_nil_r. split; [reflexivity|].
      split; [reflexivity|]. eexists. reflexivity.
    + destruct (BodyErr r); cbn [fst snd].
      * rewrite !tracef_locals. cbn [locals wire decoded].
        rewrite Hw1, Hd1, app_nil_r. split; [reflexivity|].
        split; [reflexivity|]. eexists. reflexivity.
      * destruct (json_Unmarshal (Body r) dst) as [msg dst'].
        cbn [fst snd note_decoded locals wire decoded].
        rewrite !tracef_locals. cbn [locals wire decoded].
        rewrite Hw1, Hd1. split; [reflexivity|].
        split; [reflexivity|]. eexists. reflexivity.
  - rewrite retryableErr_wrapped, (Herr e eq_refl). cbn [negb fst snd].
    rewrite !tracef_locals. unfold log. cbn [locals wire decoded].
    rewrite Hw1, Hd1, app_nil_r. split; [reflexivity|].
    split; [reflexivity|]. eexists. reflexivity.
Qed.

(** X5: an address that does not parse is a permanent failure. When
    [http.NewRequestWithContext] fails, [put] and [get] return its error
    wrapped as "preparing HTTP request" after a single attempt: nothing is
    handed to the HTTP client, nothing is decoded and the destination of
    [get] is left alone. *)
Theorem unparsable_address_is_permanent (c : Controller) ctx path obj dst
    fuel (s : Sim) e :
  url_error (api c (authToken c) path) = Some e ->
  errors_Is e DeadlineExceeded = false ->
  (fst (put now ctx_Err url_error Do c ctx path obj (S fuel) s)
   = Returned (Some (wrapError "preparing HTTP request" e))
   /\ wire (locals (snd (put now ctx_Err url_error Do c ctx path obj
                           (S fuel) s)))
      = wire (locals s))
  /\
  (fst (get now ctx_Err url_error Do json_Unmarshal c ctx path dst
          (S fuel) s)
   = (Returned (Some (wrapError "preparing HTTP request" e)), dst)
   /\ wire (locals (snd (get now ctx_Err url_error Do json_Unmarshal c ctx
                           path dst (S fuel) s)))
      = wire (locals s)
   /\ decoded (locals (snd (get now ctx_Err url_error Do json_Unmarshal c
                              ctx path dst (S fuel) s)))
      = decoded (locals s)).
Proof.
  intros Hurl He. split.
  - unfold put, json_Marshal, retry, debugf. cbn [rawDebug negb retry_loop].
    unfold debugf. cbn [rawDebug negb].
    unfold http_attempt, http_NewRequestWithContext. rewrite Hurl.
    rewrite retryableErr_wrapped, He. cbn [negb fst snd].
    rewrite ?tracef_locals. unfold log. cbn [locals wire declare_resp].
    rewrite ?tracef_locals. cbn [locals wire].
    rewrite ?tracef_locals. now split.
  - unfold get, retry, debugf. cbn [rawDebug negb retry_loop].
    unfold debugf. cbn [rawDebug negb].
    unfold http_attempt, http_NewRequestWithContext. rewrite Hurl.
    rewrite retryableErr_wrapped, He. cbn [negb fst snd].
    rewrite ?tracef_locals. unfold log.
    cbn [locals wire decoded declare_resp].
    rewrite ?tracef_locals. cbn [locals wire decoded].
    rewrite ?tracef_locals. now repeat split.
Qed.


(** An attempt fails retryably when the client fails with an error whose
    chain reaches [context.DeadlineExceeded]. *)
Lemma http_attempt_deadline (c : Controller) method path body err :
  url_error (api c (authToken c) path) = None ->
  (forall req n, exists n', Do req n = (inr err, n')) ->
  errors_Is err DeadlineExceeded = true ->
  forall sub wl,
    retryableErr (fst (http_attempt url_error Do c method path body sub wl))
    = true.
Proof.
  intros Hurl Hdo He sub [w l].
  unfold http_attempt, http_NewRequestWithContext. rewrite Hurl.
  match goal with
  | |- context [Do ?req ?w] => destruct (Hdo req w) as (n' & E)
  end.
  rewrite E. cbn [fst]. now rewrite retryableErr_wrapped.
Qed.

(** X7: a failure of the HTTP client whose chain of [Unwrap]s reaches
    [context.DeadlineExceeded] is retried, wrapped as it is, for as long as
    the caller's context reports no error: with such a client [put] and
    [get] do not return, and after any number of iterations they have
    handed the client that many requests, all alike but for the deadline. *)
Theorem exceeded_deadline_is_retried (c : Controller) ctx path obj dst
    (s : Sim) err :
  url_error (api c (authToken c) path) = None ->
  (forall req n, exists n', Do req n = (inr err, n')) ->
  errors_Is err DeadlineExceeded = true ->
  (forall w, ctx_Err ctx w = None) ->
  forall fuel,
    (fst (put now ctx_Err url_error Do c ctx path obj fuel s) = OutOfFuel
     /\ exists new,
          wire (locals (snd (put now ctx_Err url_error Do c ctx path obj
                               fuel s)))
          = wire (locals s) ++ new
          /\ List.length new = fuel
          /\ Forall (sent_by c "PUT" path (Some (render (to_json obj))) ctx)
                    new)
    /\
    (fst (fst (get now ctx_Err url_error Do json_Unmarshal c ctx path dst
                 fuel s)) = OutOfFuel
     /\ exists new,
          wire (locals (snd (get now ctx_Err url_error Do json_Unmarshal c
                               ctx path dst fuel s)))
          = wire (locals s) ++ new
          /\ List.length new = fuel
          /\ Forall (sent_by c "GET" path None ctx) new).
Proof.
  intros Hurl Hdo He Hctx fuel.
  assert (Hgo : forall method body (s0 : Sim),
            wire (locals s0) = wire (locals s) ->
            fst (retry_loop now ctx_Err c ctx
                   (http_attempt url_error Do c method path body)
                   fuel baseTimeout s0) = OutOfFuel
            /\ exists new,
                 wire (locals (snd (retry_loop now ctx_Err c ctx
                                      (http_attempt url_error Do c method
                                         path body)
                                      fuel baseTimeout s0)))
                 = wire (locals s) ++ new
                 /\ List.length new = fuel
                 /\ Forall (sent_by c method path body ctx) new).
  { intros method body s0 Hw0.
    pose proof (@retry_loop_keeps_trying N OpState now ctx_Err c ctx
                  (http_attempt url_error Do c method path body)
                  (@http_attempt_deadline c method path body err Hurl Hdo He)
                  Hctx fuel baseTimeout s0) as Ho.
    split; [exact Ho|].
    destruct (retry_loop_out_of_fuel now ctx_Err c ctx _ fuel baseTimeout s0
                Ho) as (l & El & Hn & _).
    destruct (retry_loop_http_wire c ctx method path body fuel baseTimeout s0)
      as (l' & new & El' & Ew & Hnew & Hok & _).
    rewrite El in El'. apply app_inv_head in El'. subst l'.
    exists new. rewrite Ew, Hw0. split; [reflexivity|]. split; [|exact Hnew].
    pose proof (f_equal (@List.length context) (Hok Hurl)) as Hlen.
    rewrite !length_map in Hlen. congruence. }
  split.
  - rewrite put_snd. unfold retry.
    destruct (Hgo "PUT" (Some (render (to_json obj)))
                (declare_resp (tracef c ctx (line_put c path) s)))
      as [Ho Hw]; [cbn; now rewrite tracef_locals|].
    split; [|exact Hw].
    unfold put, json_Marshal, retry, debugf. cbn [rawDebug negb].
    destruct (retry_loop _ _ _ _ _ _ _ _) as [o s1]. cbn [fst] in Ho.
    now subst o.
  - destruct (get_snd c ctx path dst fuel s) as (_ & -> & _).
    unfold retry.
    destruct (Hgo "GET" None
                (declare_resp (tracef c ctx (line_get c path) s)))
      as [Ho Hw]; [cbn; now rewrite tracef_locals|].
    split; [|exact Hw].
    unfold get, retry, debugf. cbn [rawDebug negb].
    destruct (retry_loop _ _ _ _ _ _ _ _) as [o s1]. cbn [fst] in Ho.
    now subst o.
Qed.

(** X8: a response with a status of 300 or more is final. With a
    client that answers every request so, [put] and [get] return the error
    "HTTP response <status text>" after exactly one request: the closure
    has returned [nil], so that [retry] does not try again; [get] decodes
    nothing and leaves its destination alone. *)
Theorem status_error_is_not_retried (c : Controller) ctx path obj dst fuel
    (s : Sim) r :
  url_error (api c (authToken c) path) = None ->
  (forall req n, exists n', Do req n = (inl r, n')) ->
  300 <= StatusCode r ->
  (fst (put now ctx_Err url_error Do c ctx path obj (S fuel) s)
   = Returned (Some (errorString ("HTTP response " ++ Status r)))
   /\ exists d,
        wire (locals (snd (put now ctx_Err url_error Do c ctx path obj
                             (S fuel) s)))
        = wire (locals s)
          ++ [mkRequest "PUT" (api c (authToken c) path)
                        (Some (render (to_json obj))) true
                        (WithDeadline ctx d)])
  /\
  (fst (get now ctx_Err url_error Do json_Unmarshal c ctx path dst
          (S fuel) s)
   = (Returned (Some (errorString ("HTTP response " ++ Status r))), dst)
   /\ decoded (locals (snd (get now ctx_Err url_error Do json_Unmarshal c
                              ctx path dst (S fuel) s)))
      = decoded (locals s)
   /\ exists d,
        wire (locals (snd (get now ctx_Err url_error Do json_Unmarshal c ctx
                             path dst (S fuel) s)))
        = wire (locals s)
          ++ [mkRequest "GET" (api c (authToken c) path) None true
                        (WithDeadline ctx d)]).
Proof.
  intros Hurl Hdo Hst.
  assert (Hp : forall e, @inl Response error r = inr e ->
                         errors_Is e DeadlineExceeded = false)
    by discriminate.
  assert (Eg : (StatusCode r >=? 300) = true)
    by (rewrite Z.geb_leb; now apply Z.leb_le).
  split.
  - pose proof (@put_one_exchange c ctx path obj fuel s (inl r)
                  Hurl Hdo Hp) as H.
    cbv beta iota in H. now rewrite Eg in H.
  - pose proof (@get_one_exchange c ctx path dst fuel s (inl r)
                  Hurl Hdo Hp) as H.
    cbv beta iota zeta in H. rewrite Eg, app_nil_r in H. exact H.
Qed.

(** X9: the error of reading the body of the response. [put] reads the
    body and drops the error: with a status below 300 it returns [nil]
    even when the body could not be read. [get] returns the error wrapped
    as "reading HTTP response body", does not decode what was read and
    leaves its destination alone. Neither makes a second request. *)
Theorem body_read_error (c : Controller) ctx path obj dst fuel (s : Sim)
    r e :
  url_error (api c (authToken c) path) = None ->
  (forall req n, exists n', Do req n = (inl r, n')) ->
  StatusCode r < 300 ->
  BodyErr r = Some e ->
  (fst (put now ctx_Err url_error Do c ctx path obj (S fuel) s)
   = Returned None
   /\ exists d,
        wire (locals (snd (put now ctx_Err url_error Do c ctx path obj
                             (S fuel) s)))
        = wire (locals s)
          ++ [mkRequest "PUT" (api c (authToken c) path)
                        (Some (render (to_json obj))) true
                        (WithDeadline ctx d)])
  /\
  (fst (get now ctx_Err url_error Do json_Unmarshal c ctx path dst
          (S fuel) s)
   = (Returned (Some (wrapError "reading HTTP response body" e)), dst)
   /\ decoded (locals (snd (get now ctx_Err url_error Do json_Unmarshal c
                              ctx path dst (S fuel) s)))
      = decoded (locals s)
   /\ exists d,
        wire (locals (snd (get now ctx_Err url_error Do json_Unmarshal c ctx
                             path dst (S fuel) s)))
        = wire (locals s)
          ++ [mkRequest "GET" (api c (authToken c) path) None true
                        (WithDeadline ctx d)]).
Proof.
  intros Hurl Hdo Hst Hb.
  assert (Hp : forall e, @inl Response error r = inr e ->
                         errors_Is e DeadlineExceeded = false)
    by discriminate.
  assert (Eg : (StatusCode r >=? 300) = false)
    by (rewrite Z.geb_leb; apply Z.leb_gt; lia).
  split.
  - pose proof (@put_one_exchange c ctx path obj fuel s (inl r)
                  Hurl Hdo Hp) as H.
    cbv beta iota in H. now rewrite Eg in H.
  - pose proof (@get_one_exchange c ctx path dst fuel s (inl r)
                  Hurl Hdo Hp) as H.
    cbv beta iota zeta in H. rewrite Eg, Hb, app_nil_r in H. exact H.
Qed.

(** The dereference of [resp] in [get] never panics either. *)
Lemma get_no_panic (c : Controller) ctx path dst fuel (s : Sim) :
  fst (fst (get now ctx_Err url_error Do json_Unmarshal c ctx path dst
              fuel s)) <> Panicked.
Proof.
  unfold get, retry, debugf. cbn [rawDebug negb].
  set (s0 := declare_resp (tracef c ctx _ s)).
  destruct (retry_loop_http_resp now ctx_Err url_error Do c ctx "GET" path
              None fuel baseTimeout s0 eq_refl) as [Hres _].
  pose proof (@retry_loop_no_panic N OpState now ctx_Err c ctx
                (http_attempt url_error Do c "GET" path None)
                fuel baseTimeout s0) as Hp.
  destruct (retry_loop _ _ _ _ _ _ _ s0) as [o s1].
  cbn [fst snd] in *.
  destruct o as [[err|]| |]; try discriminate; [|contradiction].
  destruct Hres as (r0 & -> & _).
  destruct (StatusCode r0 >=? 300); [discriminate|].
  destruct (BodyErr r0); [discriminate|].
  destruct (json_Unmarshal (Body r0) dst) as [[msg|] d']; discriminate.
Qed.

(** When [get] returns [nil] it has decoded the body of a response. *)
Lemma get_returns_nil (c : Controller) ctx path dst fuel (s : Sim) :
  fst (fst (get now ctx_Err url_error Do json_Unmarshal c ctx path dst
              fuel s)) = Returned None ->
  exists r,
    resp (locals (snd (get now ctx_Err url_error Do json_Unmarshal c ctx
                         path dst fuel s))) = Some r
    /\ StatusCode r < 300
    /\ BodyErr r = None
    /\ json_Unmarshal (Body r) dst
       = (None, snd (fst (get now ctx_Err url_error Do json_Unmarshal c ctx
                            path dst fuel s)))
    /\ answered Do c "GET" path None r.
Proof.
  unfold get, retry, debugf. cbn [rawDebug negb].
  set (s0 := declare_resp (tracef c ctx _ s)).
  destruct (retry_loop_http_resp now ctx_Err url_error Do c ctx "GET" path
              None fuel baseTimeout s0 eq_refl) as [Hres _].
  destruct (retry_loop _ _ _ _ _ _ _ s0) as [o s1].
  cbn [fst snd] in *.
  destruct o as [[err|]| |]; try discriminate.
  destruct Hres as (r0 & Hr0 & Hans). rewrite Hr0.
  destruct (StatusCode r0 >=? 300) eqn:Est; [discriminate|].
  destruct (BodyErr r0) eqn:Eb; [discriminate|].
  destruct (json_Unmarshal (Body r0) dst) as [[msg|] d'] eqn:Eu;
    [discriminate|].
  intros _. exists r0. cbn [fst snd note_decoded locals resp].
  split; [exact Hr0|].
  split; [rewrite Z.geb_leb in Est; apply Z.leb_gt in Est; lia|].
  now repeat split.
Qed.

(** X10: no operation of the controller panics. The only dereference
    that could, that of [resp] after [retry] has returned [nil], finds the
    response that the last attempt assigned: [retry] returns [nil] only
    when the closure did, and the closure returns [nil] only after it has
    assigned the answer of the client. *)
Theorem operations_never_panic (c : Controller) ctx path obj dst v dur col
    fuel (s : Sim) :
  fst (put now ctx_Err url_error Do c ctx path obj fuel s) <> Panicked
  /\ fst (fst (get now ctx_Err url_error Do json_Unmarshal c ctx path dst
                 fuel s)) <> Panicked
  /\ fst (Controller_State now ctx_Err url_error Do json_Unmarshal c ctx
            fuel s) <> Panicked
  /\ fst (On now ctx_Err url_error Do c ctx fuel s) <> Panicked
  /\ fst (Off now ctx_Err url_error Do c ctx fuel s) <> Panicked
  /\ fst (SetBrightness now ctx_Err url_error Do c ctx v dur fuel s)
     <> Panicked
  /\ fst (SetColor now ctx_Err url_error Do c ctx col fuel s) <> Panicked.
Proof.
  split; [apply put_no_panic|]. split; [apply get_no_panic|].
  split; [|repeat split; apply put_no_panic].
  unfold Controller_State.
  pose proof (get_no_panic c ctx "/" zero_State fuel s) as Hp.
  destruct (get _ _ _ _ _ _ _ _ _ _ _) as [[res st] s1].
  cbn [fst] in Hp. now destruct res as [[e|]| |].
Qed.

(** X11: [State] returns a state or an error, never both and never
    neither. It returns a state only when the last request, a GET of [/]
    under the controller, was answered with a status below 300 and a body
    read in full that the decoder accepted; the state is then what the
    decoder made of that body, starting from the zero [State]. *)
Theorem State_result (c : Controller) ctx fuel (s : Sim) :
  match fst (Controller_State now ctx_Err url_error Do json_Unmarshal c ctx
               fuel s) with
  | Returned (Some st, None) =>
      exists r,
        resp (locals (snd (Controller_State now ctx_Err url_error Do
                             json_Unmarshal c ctx fuel s))) = Some r
        /\ StatusCode r < 300
        /\ BodyErr r = None
        /\ json_Unmarshal (Body r) zero_State = (None, st)
        /\ answered Do c "GET" "/" None r
  | Returned (None, Some e) => True
  | Returned _ => False
  | Panicked => False
  | OutOfFuel => True
  end.
Proof.
  unfold Controller_State.
  pose proof (get_no_panic c ctx "/" zero_State fuel s) as Hp.
  pose proof (get_returns_nil c ctx "/" zero_State fuel s) as Hn.
  destruct (get _ _ _ _ _ _ _ _ _ _ _) as [[res st] s1].
  cbn [fst snd] in *.
  destruct res as [[e|]| |]; cbn [fst snd]; try exact I; [|contradiction].
  exact (Hn eq_refl).
Qed.

(** X16: with a client that answers every request with a status below
    300 and a body that is read in full, [State] is over after one request,
    a GET of [/] under the controller with no body: it hands the body to the
    decoder once, and returns the state that the decoder made of it from
    the zero [State], or else no state and the error of the decoder. *)
Theorem State_of_answer (c : Controller) ctx fuel (s : Sim) r :
  url_error (api c (authToken c) "/") = None ->
  (forall req n, exists n', Do req n = (inl r, n')) ->
  StatusCode r < 300 ->
  BodyErr r = None ->
  fst (Controller_State now ctx_Err url_error Do json_Unmarshal c ctx
         (S fuel) s)
  = Returned match fst (json_Unmarshal (Body r) zero_State) with
             | None => (Some (snd (json_Unmarshal (Body r) zero_State)), None)
             | Some msg => (None, Some (jsonError msg))
             end
  /\ decoded (locals (snd (Controller_State now ctx_Err url_error Do
                             json_Unmarshal c ctx (S fuel) s)))
     = decoded (locals s) ++ [Body r]
  /\ exists d,
       wire (locals (snd (Controller_State now ctx_Err url_error Do
                            json_Unmarshal c ctx (S fuel) s)))
       = wire (locals s)
         ++ [mkRequest "GET" (api c (authToken c) "/") None true
                       (WithDeadline ctx d)].
Proof.
  intros Hurl Hdo Hst Hb.
  assert (Hp : forall e, @inl Response error r = inr e ->
                         errors_Is e DeadlineExceeded = false)
    by discriminate.
  assert (Eg : (StatusCode r >=? 300) = false)
    by (rewrite Z.geb_leb; apply Z.leb_gt; lia).
  pose proof (@get_one_exchange c ctx "/" zero_State fuel s (inl r)
                Hurl Hdo Hp) as H.
  cbv beta iota zeta in H. rewrite Eg, Hb in H.
  unfold Controller_State.
  destruct (get _ _ _ _ _ _ _ _ _ _ _) as [[res st] s1].
  cbn [fst snd] in H. destruct H as (E & Hd & Hw).
  injection E as -> ->.
  destruct (json_Unmarshal (Body r) zero_State) as [[msg|] st'];
    cbn [fst snd option_map]; now repeat split.
Qed.

End MoreDevice.

(* ================================================================= *)
(** ** Strings *)

Lemma append_assoc (a b c : string) :
  ((a ++ b) ++ c = a ++ (b ++ c))%string.
Proof. induction a as [|x a IH]; cbn; [reflexivity | now rewrite IH]. Qed.

Lemma append_nil_r (a : string) : (a ++ "")%string = a.
Proof. induction a as [|x a IH]; cbn; [reflexivity | now rewrite IH]. Qed.

Lemma length_append (a b : string) :
  String.length (a ++ b) = (String.length a + String.length b)%nat.
Proof. induction a as [|x a IH]; cbn; [reflexivity | now rewrite IH]. Qed.

Lemma append_inv_head (a b c : string) :
  (a ++ b = a ++ c)%string -> b = c.
Proof.
  induction a as [|x a IH]; cbn; intros H; [exact H|].
  injection H as H. now apply IH.
Qed.

Lemma append_inv_tail (a b p : string) :
  (a ++ p = b ++ p)%string -> a = b.
Proof.
  revert b. induction a as [|x a IH]; intros [|y b] H; cbn in H.
  - reflexivity.
  - apply (f_equal String.length) in H. cbn in H.
    rewrite length_append in H. lia.
  - apply (f_equal String.length) in H. cbn in H.
    rewrite length_append in H. lia.
  - injection H as -> H. f_equal. now apply IH.
Qed.

Ltac norm_string :=
  repeat progress (cbn; rewrite ?append_assoc, ?append_nil_r).

(** The address that is traced is the address that is requested only for
    a controller whose token is the text [<tok>]. *)
Lemma api_token_inj {N : Type} (c : Controller (W:=N)) (t1 t2 path : string) :
  api c t1 path = api c t2 path -> t1 = t2.
Proof.
  unfold api. intros H.
  apply append_inv_head in H. apply append_inv_head in H.
  apply append_inv_head in H. now apply append_inv_tail in H.
Qed.

(* ================================================================= *)
(** ** The lines traced, and the bodies of the requests *)

Section MoreOperations.

Context {N : Type}.
Variable now : N -> Z.
Variable ctx_Err : context -> N -> option error.
Variable url_error : string -> option error.
Variable Do : Request -> N -> (Response + error) * N.
Variable json_Unmarshal : string -> State -> option string * State.

Let Controller := @Controller N.
Let Sim := @Sim N OpState.

Lemma traced_lines_harmless (c : Controller) ctx path line l o :
  line = line_put c path \/ line = line_get c path ->
  RetryLog (is_set (Tracef c)) ctx 0 l o ->
  Forall (fun call =>
            tc_ctx call = ctx
            /\ In (tc_format call) trace_formats
            /\ Forall (harmless_arg c path) (tc_args call))
         (trace_calls (traced_line (is_set (Tracef c)) ctx line ++ l)).
Proof.
  intros Hline Hl. rewrite trace_calls_app. apply Forall_app. split.
  - rewrite trace_calls_traced_line.
    destruct (is_set (Tracef c)); constructor; [|constructor].
    destruct Hline as [-> | ->]; cbn [call_of tc_ctx tc_format tc_args
                                      line_put line_get fst snd];
      (split; [reflexivity|]);
      (split; [unfold trace_formats; cbn [In]; tauto|]);
      (constructor; [reflexivity | constructor]).
  - eapply Forall_impl; [|exact (RetryLog_trace_args Hl)].
    intros call (H1 & H2 & H3). split; [exact H1|]. split; [exact H2|].
    eapply Forall_impl; [|exact H3]. now intros arg [d ->].
Qed.

(** X12: the trace hook never sees the authentication token. Every call
    of the hook that [put] and [get] make, directly or through [retry],
    has the caller's context, one of the five formats of the package, and
    for arguments durations or the address of the request with [<tok>] in
    the place of the token; and unless the token is the text [<tok>]
    itself, that is not the address that is requested. *)
Theorem trace_lines_hide_token (c : Controller) ctx path obj dst fuel
    (s : Sim) :
  (exists l,
     events (snd (put now ctx_Err url_error Do c ctx path obj fuel s))
     = events s ++ l
     /\ Forall (fun call =>
                  tc_ctx call = ctx
                  /\ In (tc_format call) trace_formats
                  /\ Forall (harmless_arg c path) (tc_args call))
               (trace_calls l))
  /\
  (exists l,
     events (snd (get now ctx_Err url_error Do json_Unmarshal c ctx path dst
                    fuel s))
     = events s ++ l
     /\ Forall (fun call =>
                  tc_ctx call = ctx
                  /\ In (tc_format call) trace_formats
                  /\ Forall (harmless_arg c path) (tc_args call))
               (trace_calls l))
  /\ (authToken c <> "<tok>" ->
      ~ harmless_arg c path (ArgString (api c (authToken c) path))).
Proof.
  split; [|split].
  - destruct (put_log now ctx_Err url_error Do c ctx path obj fuel s)
      as (l & o & El & Hl & _).
    eexists. split; [exact El|].
    apply traced_lines_harmless with (o := o); [now left | exact Hl].
  - destruct (get_log now ctx_Err url_error Do json_Unmarshal c ctx path dst
                fuel s) as (l & o & El & Hl & _).
    eexists. split; [exact El|].
    apply traced_lines_harmless with (o := o); [now right | exact Hl].
  - intros Hne H. apply Hne. cbn [harmless_arg] in H.
    apply (@api_token_inj N c (authToken c) "<tok>" path). exact H.
Qed.

Lemma render_color_request (col : Color) :
  render (to_json (color_request col))
  = ("{" ++ quote "hue" ++ ":{" ++ quote "value" ++ ":" ++ itoa (Hue col)
     ++ "}," ++ quote "sat" ++ ":{" ++ quote "value" ++ ":"
     ++ itoa (Saturation col)
     ++ "}," ++ quote "brightness" ++ ":{" ++ quote "value" ++ ":"
     ++ itoa (Brightness col) ++ "}}")%string.
Proof. unfold color_request. norm_string. reflexivity. Qed.

Lemma render_brightness_request (v : Z) (dur : Duration) :
  render (to_json (brightness_request v dur))
  = if Second <=? dur
    then ("{" ++ quote "brightness" ++ ":{" ++ quote "value" ++ ":" ++ itoa v
          ++ "," ++ quote "duration" ++ ":" ++ itoa (dur / Second)
          ++ "}}")%string
    else ("{" ++ quote "brightness" ++ ":{" ++ quote "value" ++ ":" ++ itoa v
          ++ "}}")%string.
Proof.
  destruct (brightness_duration_value dur) as [Hlong Hshort].
  destruct (Second <=? dur) eqn:Ed.
  - apply Z.leb_le in Ed. destruct (Hlong Ed) as [E Hpos].
    assert (Ez : (dur / Second =? 0) = false) by (apply Z.eqb_neq; lia).
    unfold brightness_request. rewrite E.
    cbn [to_json isEmptyValue andb]. rewrite Ez.
    generalize (dur / Second). intros d. norm_string. reflexivity.
  - apply Z.leb_gt in Ed.
    unfold brightness_request. rewrite (Hshort Ed).
    norm_string. reflexivity.
Qed.

(** X13: with a client that always answers with a status below 300,
    [SetColor] returns [nil] after handing the client exactly one request:
    a PUT to [/state] under the controller, whose body is
    [{"hue":{"value":H},"sat":{"value":S},"brightness":{"value":B}}] with
    the three numbers of the colour in decimal. The three members are
    there for every colour, zeros included, and the numbers are sent as
    they are given, in range or not. *)
Theorem SetColor_request (c : Controller) ctx col fuel (s : Sim) :
  url_error (api c (authToken c) "/state") = None ->
  (forall req n, exists r n', Do req n = (inl r, n') /\ StatusCode r < 300) ->
  fst (SetColor now ctx_Err url_error Do c ctx col (S fuel) s)
  = Returned None
  /\ exists d,
       wire (locals (snd (SetColor now ctx_Err url_error Do c ctx col
                            (S fuel) s)))
       = wire (locals s)
         ++ [mkRequest "PUT"
               ("http://" ++ ip c ++ ":16021/api/v1/" ++ authToken c
                ++ "/state")
               (Some ("{" ++ quote "hue" ++ ":{" ++ quote "value" ++ ":"
                      ++ itoa (Hue col)
                      ++ "}," ++ quote "sat" ++ ":{" ++ quote "value" ++ ":"
                      ++ itoa (Saturation col)
                      ++ "}," ++ quote "brightness" ++ ":{" ++ quote "value"
                      ++ ":" ++ itoa (Brightness col) ++ "}}")%string)
               true (WithDeadline ctx d)].
Proof.
  intros Hurl Hdo. rewrite <- render_color_request.
  exact (@put_succeeds_at_once N now ctx_Err url_error Do c ctx "/state"
           (color_request col) fuel s Hurl Hdo).
Qed.

(** X14: with a client that always answers with a status below 300,
    [SetBrightness] returns [nil] after handing the client exactly one
    request: a PUT to [/state] under the controller, whose body is
    [{"brightness":{"value":V,"duration":D}}], with [D] the whole seconds
    of the duration, when the duration is one second or more, and
    [{"brightness":{"value":V}}] otherwise. *)
Theorem SetBrightness_request (c : Controller) ctx v dur fuel (s : Sim) :
  url_error (api c (authToken c) "/state") = None ->
  (forall req n, exists r n', Do req n = (inl r, n') /\ StatusCode r < 300) ->
  fst (SetBrightness now ctx_Err url_error Do c ctx v dur (S fuel) s)
  = Returned None
  /\ exists d,
       wire (locals (snd (SetBrightness now ctx_Err url_error Do c ctx v dur
                            (S fuel) s)))
       = wire (locals s)
         ++ [mkRequest "PUT"
               ("http://" ++ ip c ++ ":16021/api/v1/" ++ authToken c
                ++ "/state")
               (Some (if Second <=? dur
                      then ("{" ++ quote "brightness" ++ ":{" ++ quote "value"
                            ++ ":" ++ itoa v ++ "," ++ quote "duration" ++ ":"
                            ++ itoa (dur / Second) ++ "}}")%string
                      else ("{" ++ quote "brightness" ++ ":{" ++ quote "value"
                            ++ ":" ++ itoa v ++ "}}")%string))
               true (WithDeadline ctx d)].
Proof.
  intros Hurl Hdo. rewrite <- render_brightness_request.
  exact (@put_succeeds_at_once N now ctx_Err url_error Do c ctx "/state"
           (brightness_request v dur) fuel s Hurl Hdo).
Qed.

End MoreOperations.

(* ================================================================= *)
(** ** The backoff, attempt by attempt *)

(** X15: the timeout grows strictly from one attempt to the next for the
    first ten attempts and stays below 5s; from the eleventh attempt on it
    is 5s. The ten attempts before the cap are given 11.333007812s
    together, and every attempt after them 5s more. *)
Theorem backoff_reaches_cap :
  (forall k, (k < 10)%nat ->
     timeout_at k < timeout_at (S k) /\ timeout_at k < maxTimeout)
  /\ (forall k, (10 <= k)%nat -> timeout_at k = maxTimeout)
  /\ (forall k, (10 <= k)%nat ->
        waited_before k = 11333007812 + Z.of_nat (k - 10) * maxTimeout).
Proof.
  split; [|split].
  - intros k Hk.
    do 10 (destruct k as [|k]; [vm_compute; now split|]). lia.
  - exact timeout_at_capped.
  - induction 1 as [|k Hk IH]; [vm_compute; reflexivity|].
    cbn [waited_before]. rewrite IH, (timeout_at_capped Hk).
    replace (S k - 10)%nat with (S (k - 10)) by lia.
    rewrite Nat2Z.inj_succ. lia.
Qed.

(* ================================================================= *)
(** ** Runs in the scripted worlds *)

Lemma retry_result_provenance_witness :
  exists l init a,
    events (snd (retry Mock.now Mock.ctx_Err Mock.silent (Caller 0) Mock.op
                   5 Mock.timeout_then_success))
    = events Mock.timeout_then_success ++ l
    /\ attempts l = init ++ [a]
    /\ Forall (fun b => retryableErr (a_err b) = true) init
    /\ ((retryableErr (a_err a) = false /\ None = a_err a
         /\ ctx_checks l = repeat None (List.length init))
        \/ (retryableErr (a_err a) = true
            /\ exists e, None = Some e
                 /\ ctx_checks l = repeat None (List.length init) ++ [Some e]))
    /\ (@None error = None -> a_err a = None).
Proof.
  apply (@retry_result_provenance Mock.World nat Mock.now Mock.ctx_Err
           Mock.silent (Caller 0) Mock.op 5 Mock.timeout_then_success None).
  vm_compute. reflexivity.
Defined.

Lemma retry_has_no_attempt_limit_witness :
  fst (retry Faults.now Faults.ctx_Err Faults.plain (Caller 0) Faults.hang
         12 Faults.idle) = OutOfFuel
  /\ exists l,
       events (snd (retry Faults.now Faults.ctx_Err Faults.plain (Caller 0)
                      Faults.hang 12 Faults.idle))
       = events Faults.idle ++ l
       /\ List.length (attempts l) = 12%nat
       /\ map a_timeout (attempts l) = map timeout_at (seq 0 12).
Proof.
  apply (@retry_has_no_attempt_limit unit nat Faults.now Faults.ctx_Err
           Faults.plain (Caller 0) Faults.hang).
  - intros sub [w calls]. reflexivity.
  - intros w. reflexivity.
Defined.


Lemma unparsable_address_is_permanent_witness :
  (fst (put Mock.now Mock.ctx_Err Faults.url_error Mock.Do Mock.silent
          (Caller 0) "/state" (on_request true) 1 (Mock.device []))
   = Returned (Some (wrapError "preparing HTTP request"
                       (errorString "invalid URL")))
   /\ wire (locals (snd (put Mock.now Mock.ctx_Err Faults.url_error Mock.Do
                           Mock.silent (Caller 0) "/state" (on_request true)
                           1 (Mock.device []))))
      = wire (locals (Mock.device [])))
  /\
  (fst (get Mock.now Mock.ctx_Err Faults.url_error Mock.Do
          Mock.json_Unmarshal Mock.silent (Caller 0) "/state" zero_State
          1 (Mock.device []))
   = (Returned (Some (wrapError "preparing HTTP request"
                        (errorString "invalid URL"))), zero_State)
   /\ wire (locals (snd (get Mock.now Mock.ctx_Err Faults.url_error Mock.Do
                           Mock.json_Unmarshal Mock.silent (Caller 0)
                           "/state" zero_State 1 (Mock.device []))))
      = wire (locals (Mock.device []))
   /\ decoded (locals (snd (get Mock.now Mock.ctx_Err Faults.url_error
                              Mock.Do Mock.json_Unmarshal Mock.silent
                              (Caller 0) "/state" zero_State 1
                              (Mock.device []))))
      = decoded (locals (Mock.device []))).
Proof.
  apply (@unparsable_address_is_permanent Mock.World Mock.now Mock.ctx_Err
           Faults.url_error Mock.Do Mock.json_Unmarshal Mock.silent
           (Caller 0) "/state" (on_request true) zero_State 0
           (Mock.device []) (errorString "invalid URL")).
  - reflexivity.
  - reflexivity.
Defined.


Lemma exceeded_deadline_is_retried_witness :
  (fst (put Mock.now Faults.ctx_live Mock.url_error Faults.Do_deadline
          Mock.silent (Caller 0) "/state" (on_request true) 4
          (Mock.device []))
   = OutOfFuel
   /\ exists new,
        wire (locals (snd (put Mock.now Faults.ctx_live Mock.url_error
                             Faults.Do_deadline Mock.silent (Caller 0)
                             "/state" (on_request true) 4
                             (Mock.device []))))
        = wire (locals (Mock.device [])) ++ new
        /\ List.length new = 4%nat
        /\ Forall (sent_by Mock.silent "PUT" "/state"
                     (Some (render (to_json (on_request true)))) (Caller 0))
                  new)
  /\
  (fst (fst (get Mock.now Faults.ctx_live Mock.url_error Faults.Do_deadline
               Mock.json_Unmarshal Mock.silent (Caller 0) "/state"
               zero_State 4 (Mock.device [])))
   = OutOfFuel
   /\ exists new,
        wire (locals (snd (get Mock.now Faults.ctx_live Mock.url_error
                             Faults.Do_deadline Mock.json_Unmarshal
                             Mock.silent (Caller 0) "/state" zero_State 4
                             (Mock.device []))))
        = wire (locals (Mock.device [])) ++ new
        /\ List.length new = 4%nat
        /\ Forall (sent_by Mock.silent "GET" "/state" None (Caller 0)) new).
Proof.
  apply (@exceeded_deadline_is_retried Mock.World Mock.now Faults.ctx_live
           Mock.url_error Faults.Do_deadline Mock.json_Unmarshal
           Mock.silent (Caller 0) "/state" (on_request true) zero_State
           (Mock.device []) Faults.deadline_exceeded).
  - reflexivity.
  - intros req n. exists n. reflexivity.
  - reflexivity.
  - intros w. reflexivity.
Defined.

Lemma status_error_is_not_retried_witness :
  (fst (put Mock.now Mock.ctx_Err Mock.url_error
          (Faults.Do_answer Faults.unavailable) Mock.silent (Caller 0)
          "/state" (on_request true) 1 (Mock.device []))
   = Returned (Some (errorString
                       ("HTTP response " ++ Status Faults.unavailable)))
   /\ exists d,
        wire (locals (snd (put Mock.now Mock.ctx_Err Mock.url_error
                             (Faults.Do_answer Faults.unavailable)
                             Mock.silent (Caller 0) "/state"
                             (on_request true) 1 (Mock.device []))))
        = wire (locals (Mock.device []))
          ++ [mkRequest "PUT" (api Mock.silent (authToken Mock.silent)
                                   "/state")
                        (Some (render (to_json (on_request true)))) true
                        (WithDeadline (Caller 0) d)])
  /\
  (fst (get Mock.now Mock.ctx_Err Mock.url_error
          (Faults.Do_answer Faults.unavailable) Mock.json_Unmarshal
          Mock.silent (Caller 0) "/" zero_State 1 (Mock.device []))
   = (Returned (Some (errorString
                        ("HTTP response " ++ Status Faults.unavailable))),
      zero_State)
   /\ decoded (locals (snd (get Mock.now Mock.ctx_Err Mock.url_error
                              (Faults.Do_answer Faults.unavailable)
                              Mock.json_Unmarshal Mock.silent (Caller 0)
                              "/" zero_State 1 (Mock.device []))))
      = decoded (locals (Mock.device []))
   /\ exists d,
        wire (locals (snd (get Mock.now Mock.ctx_Err Mock.url_error
                             (Faults.Do_answer Faults.unavailable)
                             Mock.json_Unmarshal Mock.silent (Caller 0)
                             "/" zero_State 1 (Mock.device []))))
        = wire (locals (Mock.device []))
          ++ [mkRequest "GET" (api Mock.silent (authToken Mock.silent) "/")
                        None true (WithDeadline (Caller 0) d)]).
Proof.
  split.
  - apply (@status_error_is_not_retried Mock.World Mock.now Mock.ctx_Err
             Mock.url_error (Faults.Do_answer Faults.unavailable)
             Mock.json_Unmarshal Mock.silent (Caller 0) "/state"
             (on_request true) zero_State 0 (Mock.device [])
             Faults.unavailable).
    + reflexivity.
    + intros req n. exists n. reflexivity.
    + cbn. lia.
  - apply (@status_error_is_not_retried Mock.World Mock.now Mock.ctx_Err
             Mock.url_error (Faults.Do_answer Faults.unavailable)
             Mock.json_Unmarshal Mock.silent (Caller 0) "/"
             (on_request true) zero_State 0 (Mock.device [])
             Faults.unavailable).
    + reflexivity.
    + intros req n. exists n. reflexivity.
    + cbn. lia.
Defined.

Lemma body_read_error_witness :
  (fst (put Mock.now Mock.ctx_Err Mock.url_error
          (Faults.Do_answer Faults.truncated) Mock.silent (Caller 0)
          "/state" (on_request true) 1 (Mock.device []))
   = Returned None
   /\ exists d,
        wire (locals (snd (put Mock.now Mock.ctx_Err Mock.url_error
                             (Faults.Do_answer Faults.truncated)
                             Mock.silent (Caller 0) "/state"
                             (on_request true) 1 (Mock.device []))))
        = wire (locals (Mock.device []))
          ++ [mkRequest "PUT" (api Mock.silent (authToken Mock.silent)
                                   "/state")
                        (Some (render (to_json (on_request true)))) true
                        (WithDeadline (Caller 0) d)])
  /\
  (fst (get Mock.now Mock.ctx_Err Mock.url_error
          (Faults.Do_answer Faults.truncated) Mock.json_Unmarshal
          Mock.silent (Caller 0) "/state" zero_State 1 (Mock.device []))
   = (Returned (Some (wrapError "reading HTTP response body"
                        (errorString "unexpected EOF"))), zero_State)
   /\ decoded (locals (snd (get Mock.now Mock.ctx_Err Mock.url_error
                              (Faults.Do_answer Faults.truncated)
                              Mock.json_Unmarshal Mock.silent (Caller 0)
                              "/state" zero_State 1 (Mock.device []))))
      = decoded (locals (Mock.device []))
   /\ exists d,
        wire (locals (snd (get Mock.now Mock.ctx_Err Mock.url_error
                             (Faults.Do_answer Faults.truncated)
                             Mock.json_Unmarshal Mock.silent (Caller 0)
                             "/state" zero_State 1 (Mock.device []))))
        = wire (locals (Mock.device []))
          ++ [mkRequest "GET" (api Mock.silent (authToken Mock.silent)
                                   "/state")
                        None true (WithDeadline (Caller 0) d)]).
Proof.
  apply (@body_read_error Mock.World Mock.now Mock.ctx_Err Mock.url_error
           (Faults.Do_answer Faults.truncated) Mock.json_Unmarshal
           Mock.silent (Caller 0) "/state" (on_request true) zero_State 0
           (Mock.device []) Faults.truncated
           (errorString "unexpected EOF")).
  - reflexivity.
  - intros req n. exists n. reflexivity.
  - cbn. lia.
  - reflexivity.
Defined.

Lemma SetColor_request_witness :
  fst (SetColor Mock.now Mock.ctx_Err Mock.url_error Mock.Do_ok Mock.silent
         (Caller 0) (mkColor 120 100 0) 1 (Mock.device []))
  = Returned None
  /\ exists d,
       wire (locals (snd (SetColor Mock.now Mock.ctx_Err Mock.url_error
                            Mock.Do_ok Mock.silent (Caller 0)
                            (mkColor 120 100 0) 1 (Mock.device []))))
       = [] ++ [mkRequest "PUT" "http://192.0.2.7:16021/api/v1/token/state"
                  (Some ("{" ++ quote "hue" ++ ":{" ++ quote "value"
                         ++ ":120},"
                         ++ quote "sat" ++ ":{" ++ quote "value" ++ ":100},"
                         ++ quote "brightness" ++ ":{" ++ quote "value"
                         ++ ":0}}")%string)
                  true (WithDeadline (Caller 0) d)].
Proof.
  exact (@SetColor_request Mock.World Mock.now Mock.ctx_Err Mock.url_error
           Mock.Do_ok Mock.silent (Caller 0) (mkColor 120 100 0) 0
           (Mock.device []) eq_refl Do_ok_always_succeeds).
Defined.

Lemma SetBrightness_request_witness :
  fst (SetBrightness Mock.now Mock.ctx_Err Mock.url_error Mock.Do_ok
         Mock.silent (Caller 0) 40 (2500 * Millisecond) 1 (Mock.device []))
  = Returned None
  /\ exists d,
       wire (locals (snd (SetBrightness Mock.now Mock.ctx_Err Mock.url_error
                            Mock.Do_ok Mock.silent (Caller 0) 40
                            (2500 * Millisecond) 1 (Mock.device []))))
       = [] ++ [mkRequest "PUT" "http://192.0.2.7:16021/api/v1/token/state"
                  (Some ("{" ++ quote "brightness" ++ ":{" ++ quote "value"
                         ++ ":40," ++ quote "duration" ++ ":2}}")%string)
                  true (WithDeadline (Caller 0) d)].
Proof.
  exact (@SetBrightness_request Mock.World Mock.now Mock.ctx_Err
           Mock.url_error Mock.Do_ok Mock.silent (Caller 0) 40
           (2500 * Millisecond) 0 (Mock.device [])
           eq_refl Do_ok_always_succeeds).
Defined.

Lemma State_of_answer_witness :
  fst (Controller_State Mock.now Mock.ctx_Err Mock.url_error
         (Faults.Do_answer Faults.ok_empty_object) Mock.json_Unmarshal
         Mock.silent (Caller 0) 1 (Mock.device []))
  = Returned (Some zero_State, None)
  /\ decoded (locals (snd (Controller_State Mock.now Mock.ctx_Err
                             Mock.url_error
                             (Faults.Do_answer Faults.ok_empty_object)
                             Mock.json_Unmarshal Mock.silent (Caller 0) 1
                             (Mock.device []))))
     = [] ++ ["{}"]
  /\ exists d,
       wire (locals (snd (Controller_State Mock.now Mock.ctx_Err
                            Mock.url_error
                            (Faults.Do_answer Faults.ok_empty_object)
                            Mock.json_Unmarshal Mock.silent (Caller 0) 1
                            (Mock.device []))))
       = [] ++ [mkRequest "GET" "http://192.0.2.7:16021/api/v1/token/" None
                          true (WithDeadline (Caller 0) d)].
Proof.
  apply (@State_of_answer Mock.World Mock.now Mock.ctx_Err Mock.url_error
           (Faults.Do_answer Faults.ok_empty_object) Mock.json_Unmarshal
           Mock.silent (Caller 0) 0 (Mock.device []) Faults.ok_empty_object).
  - reflexivity.
  - intros req n. exists n. reflexivity.
  - cbn. lia.
  - reflexivity.
Defined.
